(** * Gameplay core of the flock game: store reducers and obstacle collision

    A shallow embedding of [src/store.ts] (the zustand store and its
    reducers), the enums and the state record of the types module, and the
    per-frame callback of [ObstacleManager] in
    [src/components/GameScene.tsx].

    Modelling conventions.
    - A JavaScript [number] is idealised as a real number: rounding,
      infinities and NaN of IEEE doubles are outside the model.
      Comparisons [<], [<=], [>], [>=] and [===] on numbers become the
      boolean tests [ltb], [leb], [gtb], [geb] and [eqb] below.
    - [Date.now()], [Math.random()], the frame's [delta] and the clock's
      [elapsedTime] are inputs of the functions that read them.
    - A reducer passed to zustand's [set] returns a partial state (a
      [Patch]); [set] merges it into the current state. *)

From Stdlib Require Import Reals Lra Lia ZArith List Bool.
Import ListNotations.

Open Scope R_scope.

(** ** Numbers *)

Definition ltb (a b : R) : bool := if Rlt_dec a b then true else false.
Definition leb (a b : R) : bool := if Rle_dec a b then true else false.
Definition gtb (a b : R) : bool := ltb b a.
Definition geb (a b : R) : bool := leb b a.
Definition eqb (a b : R) : bool := if Req_dec_T a b then true else false.

(** ** The types module: enums and the data part of [GameState] *)

Inductive GameStatus : Set := MENU | PLAYING | GAME_OVER | GAME_WON.
Inductive DangerStatus : Set := SAFE | WARNING.
Inductive GamePhase : Set := CORRIDOR | HIGH_ALTITUDE.

Definition GameStatus_eqb (a b : GameStatus) : bool :=
  match a, b with
  | MENU, MENU | PLAYING, PLAYING | GAME_OVER, GAME_OVER | GAME_WON, GAME_WON => true
  | _, _ => false
  end.

Definition DangerStatus_eqb (a b : DangerStatus) : bool :=
  match a, b with
  | SAFE, SAFE | WARNING, WARNING => true
  | _, _ => false
  end.

Definition GamePhase_eqb (a b : GamePhase) : bool :=
  match a, b with
  | CORRIDOR, CORRIDOR | HIGH_ALTITUDE, HIGH_ALTITUDE => true
  | _, _ => false
  end.

Record GameState : Type := mkGameState {
  status : GameStatus;
  dangerStatus : DangerStatus;
  phase : GamePhase;
  score : R;
  birdCount : R;
  birdX : R;
  birdY : R;
  cameraPermissionGranted : bool;
  handDetected : bool;
  isFist : bool;
  lastHitTime : R;
  dangerTimer : R
}.

(** ** zustand's [set]: partial states and their merge *)

Record Patch : Type := mkPatch {
  p_status : option GameStatus;
  p_dangerStatus : option DangerStatus;
  p_phase : option GamePhase;
  p_score : option R;
  p_birdCount : option R;
  p_birdX : option R;
  p_birdY : option R;
  p_cameraPermissionGranted : option bool;
  p_handDetected : option bool;
  p_isFist : option bool;
  p_lastHitTime : option R;
  p_dangerTimer : option R
}.

(** The object literal [{}]. *)
Definition no_change : Patch :=
  mkPatch None None None None None None None None None None None None.

Definition pick {A : Type} (new : option A) (old : A) : A :=
  match new with
  | Some v => v
  | None => old
  end.

Definition merge (state : GameState) (p : Patch) : GameState :=
  {| status := pick (p_status p) (status state);
     dangerStatus := pick (p_dangerStatus p) (dangerStatus state);
     phase := pick (p_phase p) (phase state);
     score := pick (p_score p) (score state);
     birdCount := pick (p_birdCount p) (birdCount state);
     birdX := pick (p_birdX p) (birdX state);
     birdY := pick (p_birdY p) (birdY state);
     cameraPermissionGranted :=
       pick (p_cameraPermissionGranted p) (cameraPermissionGranted state);
     handDetected := pick (p_handDetected p) (handDetected state);
     isFist := pick (p_isFist p) (isFist state);
     lastHitTime := pick (p_lastHitTime p) (lastHitTime state);
     dangerTimer := pick (p_dangerTimer p) (dangerTimer state) |}.

(** [set(fn)]: run the reducer on the current state and merge its result. *)
Definition set_ (fn : GameState -> Patch) (state : GameState) : GameState :=
  merge state (fn state).

(** ** The store ([useGameStore]) *)

Module Store.

(** The state the store is created with. *)
Definition initial : GameState :=
  {| status := MENU;
     dangerStatus := SAFE;
     phase := CORRIDOR;
     score := 0;
     birdCount := 16;
     birdX := 0;
     birdY := 0;
     cameraPermissionGranted := false;
     handDetected := false;
     isFist := false;
     lastHitTime := 0;
     dangerTimer := 0 |}.

Definition setStatus (st : GameStatus) : GameState -> GameState :=
  set_ (fun _ =>
    mkPatch (Some st) None None None None None None None None None None None).

Definition setBirdX (v : R) : GameState -> GameState :=
  set_ (fun _ =>
    mkPatch None None None None None (Some v) None None None None None None).

Definition setBirdY (v : R) : GameState -> GameState :=
  set_ (fun _ =>
    mkPatch None None None None None None (Some v) None None None None None).

Definition setIsFist (b : bool) : GameState -> GameState :=
  set_ (fun _ =>
    mkPatch None None None None None None None None None (Some b) None None).

Definition setCameraPermission (granted : bool) : GameState -> GameState :=
  set_ (fun _ =>
    mkPatch None None None None None None None (Some granted) None None None None).

Definition setHandDetected (detected : bool) : GameState -> GameState :=
  set_ (fun _ =>
    mkPatch None None None None None None None None (Some detected) None None None).

Definition incrementScore_fn (amount : R) (state : GameState) : Patch :=
  let newScore := score state + amount in
  let newPhase :=
    if gtb newScore 300 && GamePhase_eqb (phase state) CORRIDOR
    then HIGH_ALTITUDE else phase state in
  let newStatus :=
    if geb newScore 800 && negb (GameStatus_eqb (status state) GAME_WON)
    then GAME_WON else status state in
  mkPatch (Some newStatus) None (Some newPhase) (Some newScore)
          None None None None None None None None.

Definition incrementScore (amount : R) : GameState -> GameState :=
  set_ (incrementScore_fn amount).

(** [now] is the value [Date.now()] returns inside the reducer. *)
Definition triggerDanger_fn (now : R) (state : GameState) : Patch :=
  if DangerStatus_eqb (dangerStatus state) WARNING
     || ltb (now - lastHitTime state) 2000
  then no_change
  else mkPatch None (Some WARNING) None None None None None None None None
               (Some now) (Some 3000).

Definition triggerDanger (now : R) : GameState -> GameState :=
  set_ (triggerDanger_fn now).

Definition resolveDanger_fn (success : bool) (now : R) (state : GameState)
  : Patch :=
  if negb (DangerStatus_eqb (dangerStatus state) WARNING) then no_change
  else
    let newCount :=
      if negb success then Rmax 0 (birdCount state - 1)
      else birdCount state in
    let newStatus := if leb newCount 0 then GAME_OVER else status state in
    let newDanger := SAFE in
    mkPatch (Some newStatus) (Some newDanger) None None (Some newCount)
            None None None None None (Some now) None.

Definition resolveDanger (success : bool) (now : R)
  : GameState -> GameState :=
  set_ (resolveDanger_fn success now).

Definition tickDangerTimer_fn (deltaMs now : R) (state : GameState)
  : Patch :=
  if negb (DangerStatus_eqb (dangerStatus state) WARNING) then no_change
  else
    let newTime := dangerTimer state - deltaMs in
    if leb newTime 0 then
      let newCount := Rmax 0 (birdCount state - 1) in
      mkPatch (Some (if leb newCount 0 then GAME_OVER else status state))
              (Some SAFE) None None (Some newCount)
              None None None None None (Some now) (Some 0)
    else
      mkPatch None None None None None None None None None None None
              (Some newTime).

Definition tickDangerTimer (deltaMs now : R) : GameState -> GameState :=
  set_ (tickDangerTimer_fn deltaMs now).

Definition resetGame : GameState -> GameState :=
  set_ (fun _ =>
    mkPatch (Some PLAYING) (Some SAFE) (Some CORRIDOR) (Some 0) (Some 16)
            (Some 0) (Some 0) None None None (Some 0) (Some 0)).

End Store.

(** ** [ObstacleManager]: the live obstacles and the per-frame callback *)

Module ObstacleManager.

Definition LASER_SPAWN_INTERVAL_MIN_P1 : R := 300.
Definition LASER_SPAWN_INTERVAL_MAX_P1 : R := 600.
Definition LASER_SPAWN_INTERVAL_MIN_P2 : R := 400.
Definition LASER_SPAWN_INTERVAL_MAX_P2 : R := 700.
Definition LASER_SPEED : R := 60.
Definition SCENE_WIDTH : R := 20.
Definition SCENE_HEIGHT : R := 12.

Inductive LaserType : Set := beam | pillar.

Record Laser : Type := mkLaser {
  id : R;
  z : R;
  x : R;
  y : R;
  width : R;
  side : R;
  angle : R;
  type : LaserType
}.

(** The component's own state: [useState] for [lasers], [useRef] for the
    two scheduling values.  It lives in the mounted component, not in the
    store. *)
Record Component : Type := mkComponent {
  lasers : list Laser;
  lastSpawnTime : R;
  nextSpawnInterval : R
}.

Definition mounted : Component :=
  {| lasers := []; lastSpawnTime := 0; nextSpawnInterval := 1000 |}.

(** The results of the [Math.random()] calls of one spawn, named after the
    value each one is used for. *)
Record Randoms : Type := mkRandoms {
  rnd_interval : R;
  rnd_originX : R;
  rnd_spawnY : R;
  rnd_side : R;
  rnd_angle : R;
  rnd_length : R;
  rnd_id : R
}.

Definition spawnInterval (isPhase1 : bool) (rnd : Randoms) : R :=
  let minInterval :=
    if isPhase1 then LASER_SPAWN_INTERVAL_MIN_P1
    else LASER_SPAWN_INTERVAL_MIN_P2 in
  let maxInterval :=
    if isPhase1 then LASER_SPAWN_INTERVAL_MAX_P1
    else LASER_SPAWN_INTERVAL_MAX_P2 in
  minInterval + rnd_interval rnd * (maxInterval - minInterval).

Definition spawnLaser (isPhase1 : bool) (rnd : Randoms) : Laser :=
  if isPhase1 then
    {| id := rnd_id rnd;
       z := -200;
       x := (rnd_originX rnd - 0.5) * 30;
       y := -5 + rnd_spawnY rnd * 20;
       width := 40 + rnd_length rnd * 10;
       side := if gtb (rnd_side rnd) 0.5 then 1 else -1;
       angle := (if gtb (rnd_angle rnd) 0.5 then 1 else -1) * (PI / 4);
       type := beam |}
  else
    {| id := rnd_id rnd;
       z := -200;
       x := (rnd_originX rnd - 0.5) * 60;
       y := -50;
       width := 120;
       side := -1;
       angle := PI / 2;
       type := pillar |}.

(** The point of the laser's segment the test measures the distance to
    ([closestX], [closestY]). *)
Definition closest (currentBirdX currentBirdY : R) (laser : Laser) : R * R :=
  let dirBaseX := if eqb (side laser) 1 then -1 else 1 in
  let dirBaseY := 0 in
  let cosA := cos (angle laser) in
  let sinA := sin (angle laser) in
  let dirX := dirBaseX * cosA - dirBaseY * sinA in
  let dirY := dirBaseX * sinA + dirBaseY * cosA in
  let dx := currentBirdX - x laser in
  let dy := currentBirdY - y laser in
  let t := dx * dirX + dy * dirY in
  if ltb t 0 then (x laser, y laser)
  else if gtb t (width laser)
       then (x laser + width laser * dirX, y laser + width laser * dirY)
       else (x laser + t * dirX, y laser + t * dirY).

(** [laser.type === 'pillar' ? 5.0 : 0.8] *)
Definition visualRadius (t : LaserType) : R :=
  match t with
  | pillar => 5
  | beam => 0.8
  end.

(** The condition under which the loop body calls [triggerDanger()]:
    the depth check on the advanced [newZ] and the distance check. *)
Definition hits (delta currentBirdX currentBirdY flockRadius : R)
  (laser : Laser) : bool :=
  let newZ := z laser + LASER_SPEED * delta in
  let dz := Rabs (newZ - 0) in
  if ltb dz 3 then
    let '(closestX, closestY) := closest currentBirdX currentBirdY laser in
    let distSq := (currentBirdX - closestX) ^ 2 + (currentBirdY - closestY) ^ 2 in
    let threshold := visualRadius (type laser) + flockRadius in
    ltb distSq (threshold * threshold)
  else false.

(** One iteration of [for (const laser of prev)]; the accumulator is the
    store as left by the calls made so far and [nextLasers]. *)
Definition laserStep (delta now currentBirdX currentBirdY flockRadius : R)
  (acc : GameState * list Laser) (laser : Laser) : GameState * list Laser :=
  let '(st, nextLasers) := acc in
  let newZ := z laser + LASER_SPEED * delta in
  let st1 :=
    if hits delta currentBirdX currentBirdY flockRadius laser
    then Store.triggerDanger now st else st in
  if gtb newZ 20 then (Store.incrementScore 10 st1, nextLasers)
  else (st1,
        nextLasers ++
        [ {| id := id laser; z := newZ; x := x laser; y := y laser;
             width := width laser; side := side laser;
             angle := angle laser; type := type laser |} ]).

(** The store together with the mounted component. *)
Record World : Type := mkWorld {
  store : GameState;
  comp : Component
}.

(** The callback given to [useFrame].  The values destructured from the
    store ([status], [birdX], [birdY], [isFist], [phase]) are those of
    the store when the frame starts; [now] is what [Date.now()] returns
    to the reducers called during the frame. *)
Definition frame (delta elapsedTime now : R) (rnd : Randoms) (w : World)
  : World :=
  let s := store w in
  if negb (GameStatus_eqb (status s) PLAYING) then w
  else
    let st0 := Store.tickDangerTimer (delta * 1000) now s in
    let time := elapsedTime * 1000 in
    let c := comp w in
    let spawning := gtb (time - lastSpawnTime c) (nextSpawnInterval c) in
    let isPhase1 := GamePhase_eqb (phase s) CORRIDOR in
    let prev :=
      if spawning then lasers c ++ [spawnLaser isPhase1 rnd] else lasers c in
    let currentBirdX := birdX s * SCENE_WIDTH in
    let currentBirdY := birdY s * SCENE_HEIGHT + 5 in
    let flockRadius := if isFist s then 1 else 4 in
    let '(st1, nextLasers) :=
      fold_left (laserStep delta now currentBirdX currentBirdY flockRadius)
                prev (st0, []) in
    {| store := st1;
       comp :=
         {| lasers := nextLasers;
            lastSpawnTime := if spawning then time else lastSpawnTime c;
            nextSpawnInterval :=
              if spawning then spawnInterval isPhase1 rnd
              else nextSpawnInterval c |} |}.

(** The restart buttons of the UI are wired to the store's [resetGame]
    alone ([onClick={resetGame}]); the component stays mounted. *)
Definition onClickReset (w : World) : World :=
  {| store := Store.resetGame (store w); comp := comp w |}.

End ObstacleManager.

(** ** Runs of store actions *)

(** The actions of the store's interface, with the values of
    [Date.now()] they read. *)
Inductive Action : Type :=
| SetStatus (st : GameStatus)
| SetBirdX (v : R)
| SetBirdY (v : R)
| SetIsFist (b : bool)
| IncrementScore (amount : R)
| TriggerDanger (now : R)
| ResolveDanger (success : bool) (now : R)
| TickDangerTimer (deltaMs now : R)
| ResetGame
| SetCameraPermission (granted : bool)
| SetHandDetected (detected : bool).

Definition dispatch (a : Action) : GameState -> GameState :=
  match a with
  | SetStatus st => Store.setStatus st
  | SetBirdX v => Store.setBirdX v
  | SetBirdY v => Store.setBirdY v
  | SetIsFist b => Store.setIsFist b
  | IncrementScore amount => Store.incrementScore amount
  | TriggerDanger now => Store.triggerDanger now
  | ResolveDanger success now => Store.resolveDanger success now
  | TickDangerTimer deltaMs now => Store.tickDangerTimer deltaMs now
  | ResetGame => Store.resetGame
  | SetCameraPermission granted => Store.setCameraPermission granted
  | SetHandDetected detected => Store.setHandDetected detected
  end.

Definition run (acts : list Action) (s : GameState) : GameState :=
  fold_left (fun st a => dispatch a st) acts s.

(** The game operations: score increments, trigger, resolve and tick.
    Score deltas are never negative (the frame loop only ever adds 10). *)
Definition gameOp (a : Action) : Prop :=
  match a with
  | IncrementScore amount => 0 <= amount
  | TriggerDanger _ | ResolveDanger _ _ | TickDangerTimer _ _ => True
  | _ => False
  end.

(** A failed rescue: a manual [resolveDanger(false)] or a timer expiry,
    taken while a warning is pending. *)
Definition failedRescue (a : Action) (s : GameState) : Prop :=
  dangerStatus s = WARNING /\
  match a with
  | ResolveDanger false _ => True
  | TickDangerTimer deltaMs _ => dangerTimer s - deltaMs <= 0
  | _ => False
  end.

(** The states a session starts from: the store as created, or any store
    after [resetGame]. *)
Inductive start : GameState -> Prop :=
| start_initial : start Store.initial
| start_reset : forall s, start (Store.resetGame s).

Definition runScores (deltas : list R) (s : GameState) : GameState :=
  fold_left (fun st d => Store.incrementScore d st) deltas s.

(** Cumulative score of a sequence of deltas. *)
Definition total (deltas : list R) : R :=
  fold_right Rplus 0 deltas.

(** ** The collision test as the specification words it *)

Module CollisionSpec.

Definition vec : Type := (R * R)%type.

Definition base (side : R) : vec :=
  if Req_dec_T side 1 then (-1, 0) else (1, 0).

Definition rotate (v : vec) (a : R) : vec :=
  (fst v * cos a - snd v * sin a, fst v * sin a + snd v * cos a).

Definition direction (side angle : R) : vec := rotate (base side) angle.

(** Parameter of the projection of [p] on the line through [origin]
    along [dir]. *)
Definition project (p origin dir : vec) : R :=
  (fst p - fst origin) * fst dir + (snd p - snd origin) * snd dir.

Definition clamp (t len : R) : R := Rmax 0 (Rmin t len).

Definition closestPoint (p origin dir : vec) (len : R) : vec :=
  let t := clamp (project p origin dir) len in
  (fst origin + t * fst dir, snd origin + t * snd dir).

Definition distSq (p q : vec) : R :=
  (fst p - fst q) ^ 2 + (snd p - snd q) ^ 2.

Definition inBand (depth : R) : Prop := Rabs depth < 3.

Definition hit (p origin dir : vec) (len visualRadius flockRadius : R) : Prop :=
  distSq p (closestPoint p origin dir len) < (visualRadius + flockRadius) ^ 2.

End CollisionSpec.

(** ** [HandController]: from hand landmarks to the store's inputs *)

Module HandController.

(** A normalised landmark of the detector; only [x] and [y] are read. *)
Record Landmark : Type := mkLandmark {
  x : R;
  y : R
}.

(** What one run of the detection branch leaves behind: the store after
    the last setter that ran, and whether the run ended or threw (reading
    [.x] of a landmark the array does not hold). *)
Inductive Outcome : Type :=
| Done (s : GameState)
| Threw (s : GameState).

Definition stateOf (o : Outcome) : GameState :=
  match o with
  | Done s => s
  | Threw s => s
  end.

(** [getDist], with [landmarks[idx]] out of range as [None]. *)
Definition getDist (landmarks : list Landmark) (wrist : Landmark) (idx : nat)
  : option R :=
  match nth_error landmarks idx with
  | Some p =>
      let dx := x p - x wrist in
      let dy := y p - y wrist in
      Some (sqrt (dx * dx + dy * dy))
  | None => None
  end.

(** [idxs.map(getDist)]: the distances in order, or [None] when one of
    the calls throws. *)
Fixpoint mapDist (landmarks : list Landmark) (wrist : Landmark)
  (idxs : list nat) : option (list R) :=
  match idxs with
  | [] => Some []
  | idx :: rest =>
      match getDist landmarks wrist idx with
      | Some d =>
          match mapDist landmarks wrist rest with
          | Some ds => Some (d :: ds)
          | None => None
          end
      | None => None
      end
  end.

(** [distances.reduce((a, b) => a + b, 0) / 4] *)
Definition avg4 (distances : list R) : R :=
  fold_left Rplus distances 0 / 4.

Definition tips : list nat := [8; 12; 16; 20]%nat.
Definition pips : list nat := [6; 10; 14; 18]%nat.

(** The fist test on one hand: [avgTipDist < avgPipDist * 0.9]. *)
Definition isFistDetected (landmarks : list Landmark) : option bool :=
  match nth_error landmarks 0 with
  | Some wrist =>
      match mapDist landmarks wrist tips with
      | Some tipDistances =>
          match mapDist landmarks wrist pips with
          | Some pipDistances =>
              Some (ltb (avg4 tipDistances) (avg4 pipDistances * 0.9))
          | None => None
          end
      | None => None
      end
  | None => None
  end.

(** [Math.max(-1, Math.min(1, (0.5 - rawX) * 2.5))] and its vertical
    counterpart. *)
Definition mapX (rawX : R) : R := Rmax (-1) (Rmin 1 ((0.5 - rawX) * 2.5)).
Definition mapY (rawY : R) : R := Rmax (-1) (Rmin 1 ((0.5 - rawY) * 3)).

(** The body of [predictWebcam] once [detectForVideo] has returned
    [detections.landmarks], a list of hands. *)
Definition onDetections (detections : list (list Landmark)) (s : GameState)
  : Outcome :=
  match detections with
  | landmarks :: _ =>
      let s1 := Store.setHandDetected true s in
      match nth_error landmarks 9 with
      | Some mcp =>
          let s2 := Store.setBirdX (mapX (x mcp)) s1 in
          let s3 := Store.setBirdY (mapY (y mcp)) s2 in
          match isFistDetected landmarks with
          | Some fist => Done (Store.setIsFist fist s3)
          | None => Threw s3
          end
      | None => Threw s1
      end
  | [] => Done (Store.setIsFist false (Store.setHandDetected false s))
  end.

End HandController.

(** ** [Flock]: rescue gesture, easing and formation *)

Module Flock.

Definition FLOCK_COUNT : nat := 16.

(** The two [useRef] values of the component. *)
Record Refs : Type := mkRefs {
  targetPos : R * R;
  currentSpread : R
}.

Definition mounted : Refs := {| targetPos := (0, 0); currentSpread := 1.5 |}.

(** The [useEffect] on [dangerStatus] and [isFist]. *)
Definition rescueEffect (now : R) (s : GameState) : GameState :=
  if DangerStatus_eqb (dangerStatus s) WARNING && isFist s
  then Store.resolveDanger true now s
  else s.

Definition desired (s : GameState) : R * R :=
  (birdX s * 20, birdY s * 12 + 5).

Definition followSpeed (s : GameState) : R :=
  if DangerStatus_eqb (dangerStatus s) WARNING then 1 else 5.

Definition targetSpread (s : GameState) : R :=
  if isFist s then 0.4 else 1.5.

(** The easing part of the [useFrame] callback. *)
Definition ease (delta : R) (s : GameState) (r : Refs) : Refs :=
  {| targetPos :=
       (fst (targetPos r)
        + (fst (desired s) - fst (targetPos r)) * followSpeed s * delta,
        snd (targetPos r)
        + (snd (desired s) - snd (targetPos r)) * followSpeed s * delta);
     currentSpread :=
       currentSpread r + (targetSpread s - currentSpread r) * 3 * delta |}.

(** [n] frames of the same length under an unchanged store. *)
Fixpoint easeN (n : nat) (delta : R) (s : GameState) (r : Refs) : Refs :=
  match n with
  | O => r
  | S m => ease delta s (easeN m delta s r)
  end.

(** Bird [i] is drawn unless [i >= birdCount]. *)
Definition visible (s : GameState) (i : nat) : bool :=
  negb (geb (INR i) (birdCount s)).

Definition visibleBirds (s : GameState) : list nat :=
  filter (visible s) (seq 0 FLOCK_COUNT).

(** [Math.floor((i + 1) / 2)] and [i % 2 === 0 ? 1 : -1]. *)
Definition row (i : nat) : nat := ((i + 1) / 2)%nat.
Definition wing (i : nat) : R := if Nat.even i then 1 else -1.

(** [(offsetX, offsetZ)] of bird [i] in the formation. *)
Definition offset (spread : R) (i : nat) : R * R :=
  let spreadX := spread in
  let spreadZ := spread * 0.8 in
  if (0 <? i)%nat
  then (wing i * INR (row i) * spreadX, INR (row i) * spreadZ)
  else (0, 0).

End Flock.

(** ** Scrolling of the city and of the ground lights *)

Module City.

Definition SPEED : R := 40.
Definition BUILDING_RANGE : R := 300.
Definition RANGE : R := 250.

(** One frame of a building's [position.z] in [City]. *)
Definition scroll (delta z : R) : R :=
  let z1 := z + SPEED * delta in
  if gtb z1 50 then z1 - BUILDING_RANGE * 2 else z1.

(** One frame of a light's [position.z] in [CityFloor]. *)
Definition floorScroll (delta z : R) : R :=
  let z1 := z + SPEED * delta in
  if gtb z1 50 then z1 - RANGE else z1.

End City.

(** ** The overlay ([UI]) *)

Module UI.

Definition warningOverlay (s : GameState) : bool :=
  GameStatus_eqb (status s) PLAYING
  && DangerStatus_eqb (dangerStatus s) WARNING.

Definition startMenu (s : GameState) : bool :=
  GameStatus_eqb (status s) MENU.

Definition gameOverScreen (s : GameState) : bool :=
  GameStatus_eqb (status s) GAME_OVER.

Definition victoryScreen (s : GameState) : bool :=
  GameStatus_eqb (status s) GAME_WON.

Definition bottomInstructions (s : GameState) : bool :=
  GameStatus_eqb (status s) PLAYING
  && negb (DangerStatus_eqb (dangerStatus s) WARNING).

(** The panels rendered for a state, in the order of the markup. *)
Definition panels (s : GameState) : list bool :=
  [warningOverlay s; startMenu s; gameOverScreen s; victoryScreen s;
   bottomInstructions s].

(** The restart buttons ([onClick={resetGame}]) are part of the game-over
    and victory screens. *)
Definition restartOffered (s : GameState) : bool :=
  gameOverScreen s || victoryScreen s.

End UI.

(** ** States, obstacles and predicates the properties are stated with *)

(** A warning raised at time 5000 with one bird left and 16 ms on the
    clock. *)
Definition lastBirdWarning : GameState :=
  mkGameState PLAYING WARNING CORRIDOR 120 1 0 0 true true false 5000 16.

(** The last bird is lost by a failed manual rescue at time 7990. *)
Definition afterLastBird : GameState :=
  Store.resolveDanger false 7990 lastBirdWarning.

(** A lost game with one beam still in flight 80 units ahead: the frame
    callback returns at once while the status is not PLAYING, so the
    beam stays where the last played frame left it. *)
Definition strandedBeam : ObstacleManager.Laser :=
  ObstacleManager.mkLaser 0.25 (-80) 3 4 45 1 (PI / 4) ObstacleManager.beam.

Definition lostWorld : ObstacleManager.World :=
  ObstacleManager.mkWorld
    (mkGameState GAME_OVER SAFE CORRIDOR 120 0 0 0 true true false 9000 0)
    (ObstacleManager.mkComponent [strandedBeam] 7000 450).

(** The beam of the scenario: origin (0,0), base direction (1,0)
    ([side = -1]) not rotated, length 10, at the flock's depth. *)
Definition scenarioBeam : ObstacleManager.Laser :=
  ObstacleManager.mkLaser 0 0 0 0 10 (-1) 0 ObstacleManager.beam.

(** What is left untouched after a game over: ticks, and triggers still
    inside the cooldown that started at [since]. *)
Definition quiet (since : R) (a : Action) : Prop :=
  match a with
  | TickDangerTimer _ _ => True
  | TriggerDanger now => now - since < 2000
  | _ => False
  end.

Definition birdsInRange (s : GameState) : Prop :=
  exists n : Z, birdCount s = IZR n /\ (0 <= n <= 16)%Z.

Definition sessionInv (s : GameState) : Prop :=
  (phase s = HIGH_ALTITUDE -> 300 < score s)
  /\ (status s = GAME_WON -> 800 <= score s)
  /\ (status s = GAME_OVER -> birdCount s = 0)
  /\ birdsInRange s.

Definition nonnegLength (laser : ObstacleManager.Laser) : Prop :=
  0 <= ObstacleManager.width laser.

(** The laser as pushed to [nextLasers]: [{ ...laser, z: newZ }]. *)
Definition advance (delta : R) (laser : ObstacleManager.Laser)
  : ObstacleManager.Laser :=
  ObstacleManager.mkLaser (ObstacleManager.id laser)
    (ObstacleManager.z laser + ObstacleManager.LASER_SPEED * delta)
    (ObstacleManager.x laser) (ObstacleManager.y laser)
    (ObstacleManager.width laser) (ObstacleManager.side laser)
    (ObstacleManager.angle laser) (ObstacleManager.type laser).

(** The laser has passed the flock plane by more than 20 after the
    frame's advance. *)
Definition retires (delta : R) (laser : ObstacleManager.Laser) : bool :=
  gtb (ObstacleManager.z laser + ObstacleManager.LASER_SPEED * delta) 20.

(** The list the frame's loop runs over: the live lasers, with the new
    one appended when a spawn is due. *)
Definition inFlight (elapsedTime : R) (rnd : ObstacleManager.Randoms)
  (w : ObstacleManager.World) : list ObstacleManager.Laser :=
  if gtb (elapsedTime * 1000
          - ObstacleManager.lastSpawnTime (ObstacleManager.comp w))
         (ObstacleManager.nextSpawnInterval (ObstacleManager.comp w))
  then ObstacleManager.lasers (ObstacleManager.comp w)
       ++ [ObstacleManager.spawnLaser
             (GamePhase_eqb (phase (ObstacleManager.store w)) CORRIDOR) rnd]
  else ObstacleManager.lasers (ObstacleManager.comp w).

(** Every [Math.random()] result lies in [0, 1). *)
Definition unitDraw (r : R) : Prop := 0 <= r < 1.

(** The flock's inputs are within the range the hand controller writes. *)
Definition inputsInRange (s : GameState) : Prop :=
  -1 <= birdX s <= 1 /\ -1 <= birdY s <= 1.


(** * Properties *)

(** ** Boolean tests on numbers *)

Lemma ltb_true (a b : R) : ltb a b = true <-> a < b.
Proof. unfold ltb. destruct (Rlt_dec a b); split; intros; try discriminate; tauto. Qed.

Lemma ltb_false (a b : R) : ltb a b = false <-> b <= a.
Proof.
  unfold ltb. destruct (Rlt_dec a b); split; intros; try discriminate; try lra; auto.
Qed.

Lemma leb_true (a b : R) : leb a b = true <-> a <= b.
Proof. unfold leb. destruct (Rle_dec a b); split; intros; try discriminate; tauto. Qed.

Lemma leb_false (a b : R) : leb a b = false <-> b < a.
Proof.
  unfold leb. destruct (Rle_dec a b); split; intros; try discriminate; try lra; auto.
Qed.

Lemma eqb_true (a b : R) : eqb a b = true <-> a = b.
Proof. unfold eqb. destruct (Req_dec_T a b); split; intros; try discriminate; tauto. Qed.

Lemma DangerStatus_eqb_eq (a b : DangerStatus) :
  DangerStatus_eqb a b = true <-> a = b.
Proof. destruct a, b; simpl; split; intros; congruence. Qed.

Lemma GamePhase_eqb_eq (a b : GamePhase) : GamePhase_eqb a b = true <-> a = b.
Proof. destruct a, b; simpl; split; intros; congruence. Qed.

Lemma GameStatus_eqb_eq (a b : GameStatus) : GameStatus_eqb a b = true <-> a = b.
Proof. destruct a, b; simpl; split; intros; congruence. Qed.

(** Case analysis on every numeric test left in the goal, keeping the
    ordering facts as hypotheses. *)
Ltac num_cases :=
  repeat match goal with
  | |- context [ltb ?a ?b] =>
      let H := fresh "Hlt" in
      destruct (ltb a b) eqn:H;
      [ apply ltb_true in H | apply ltb_false in H ]
  | |- context [leb ?a ?b] =>
      let H := fresh "Hle" in
      destruct (leb a b) eqn:H;
      [ apply leb_true in H | apply leb_false in H ]
  end.

Ltac store_unfold :=
  unfold Store.incrementScore, Store.triggerDanger, Store.resolveDanger,
    Store.tickDangerTimer, Store.resetGame, set_, merge,
    Store.incrementScore_fn, Store.triggerDanger_fn, Store.resolveDanger_fn,
    Store.tickDangerTimer_fn, gtb, geb, no_change, pick; cbn [p_status p_dangerStatus p_phase p_score p_birdCount p_birdX p_birdY
      p_cameraPermissionGranted p_handDetected p_isFist p_lastHitTime
      p_dangerTimer].

(** Every reducer's effect on a state is determined by the state's
    fields, so a state equals the record of its own fields. *)
Lemma GameState_eta (s : GameState) :
  s = mkGameState (status s) (dangerStatus s) (phase s) (score s)
        (birdCount s) (birdX s) (birdY s) (cameraPermissionGranted s)
        (handDetected s) (isFist s) (lastHitTime s) (dangerTimer s).
Proof. destruct s; reflexivity. Qed.

(** ** Score increments *)

(** C2: a score increment adds [delta] to the score; the phase changes
    exactly when the previous phase was CORRIDOR and the new score exceeds
    300, and then to HIGH_ALTITUDE; the status changes exactly when the new
    score is at least 800 and the status was not GAME_WON, and then to
    GAME_WON; every other field keeps its value.  The operation is a total
    function. *)
Theorem incrementScore_spec (s : GameState) (delta : R) :
  score (Store.incrementScore delta s) = score s + delta
  /\ (phase (Store.incrementScore delta s) <> phase s
      <-> phase s = CORRIDOR /\ 300 < score s + delta)
  /\ (phase (Store.incrementScore delta s) = phase s
      \/ phase (Store.incrementScore delta s) = HIGH_ALTITUDE)
  /\ (status (Store.incrementScore delta s) <> status s
      <-> 800 <= score s + delta /\ status s <> GAME_WON)
  /\ (status (Store.incrementScore delta s) = status s
      \/ status (Store.incrementScore delta s) = GAME_WON)
  /\ Store.incrementScore delta s =
     mkGameState (status (Store.incrementScore delta s)) (dangerStatus s)
       (phase (Store.incrementScore delta s)) (score s + delta)
       (birdCount s) (birdX s) (birdY s) (cameraPermissionGranted s)
       (handDetected s) (isFist s) (lastHitTime s) (dangerTimer s).
Proof.
  destruct s as [st ds ph sc bc bx by_ cam hand fist lht dt].
  store_unfold; cbn.
  num_cases; destruct ph, st; cbn; intuition (try congruence; try lra).
Qed.

(** ** The danger state machine *)

(** C3: [triggerDanger] leaves the state as it is when a warning is
    already pending or the last hit is less than 2000 ms old; otherwise it
    sets [dangerStatus] to WARNING, [dangerTimer] to 3000 and
    [lastHitTime] to [now] and nothing else.  After a trigger that went
    through, a second trigger is a no-op whatever its timestamp, so in
    particular within 2000 ms. *)
Theorem triggerDanger_spec (s : GameState) (now : R) :
  (dangerStatus s = WARNING \/ now - lastHitTime s < 2000 ->
   Store.triggerDanger now s = s)
  /\ (~ (dangerStatus s = WARNING \/ now - lastHitTime s < 2000) ->
      Store.triggerDanger now s =
      mkGameState (status s) WARNING (phase s) (score s) (birdCount s)
        (birdX s) (birdY s) (cameraPermissionGranted s) (handDetected s)
        (isFist s) now 3000
      /\ forall later : R,
           Store.triggerDanger later (Store.triggerDanger now s) =
           Store.triggerDanger now s).
Proof.
  destruct s as [st ds ph sc bc bx by_ cam hand fist lht dt].
  store_unfold; cbn. split.
  - intros [-> | Hcool]; [reflexivity|].
    apply ltb_true in Hcool. rewrite Hcool, orb_true_r. reflexivity.
  - intros Hgo.
    assert (ds = SAFE) as -> by (destruct ds; tauto).
    assert (ltb (now - lht) 2000 = false) as ->
      by (apply ltb_false; apply Rnot_lt_le; tauto).
    cbn. split; reflexivity.
Qed.

(** C4: [resolveDanger] is a no-op unless a warning is pending; on a
    pending warning the bird count drops by one, not below 0, when the
    rescue failed and is kept when it succeeded, [dangerStatus] becomes
    SAFE, [lastHitTime] becomes [now], and [status] becomes GAME_OVER when
    the new bird count is at most 0 and is kept otherwise. *)
Theorem resolveDanger_spec (s : GameState) (success : bool) (now : R) :
  (dangerStatus s <> WARNING -> Store.resolveDanger success now s = s)
  /\ (dangerStatus s = WARNING ->
      birdCount (Store.resolveDanger success now s) =
        (if success then birdCount s else Rmax 0 (birdCount s - 1))
      /\ dangerStatus (Store.resolveDanger success now s) = SAFE
      /\ lastHitTime (Store.resolveDanger success now s) = now
      /\ (birdCount (Store.resolveDanger success now s) <= 0 ->
          status (Store.resolveDanger success now s) = GAME_OVER)
      /\ (0 < birdCount (Store.resolveDanger success now s) ->
          status (Store.resolveDanger success now s) = status s)
      /\ Store.resolveDanger success now s =
         mkGameState (status (Store.resolveDanger success now s)) SAFE
           (phase s) (score s)
           (birdCount (Store.resolveDanger success now s))
           (birdX s) (birdY s) (cameraPermissionGranted s) (handDetected s)
           (isFist s) now (dangerTimer s)).
Proof.
  destruct s as [st ds ph sc bc bx by_ cam hand fist lht dt].
  store_unfold; cbn. split.
  - intros Hsafe. destruct ds; [reflexivity | congruence].
  - intros ->. cbn. destruct success; cbn; num_cases;
      repeat split; intros; try reflexivity; lra.
Qed.

(** C5: on a pending warning, a tick that brings the timer to 0 or below
    yields the state [resolveDanger(false)] yields at the same [now], with
    [dangerTimer] set to 0, in one update: the bird count drops by one,
    not below 0, [dangerStatus] becomes SAFE, and [status] becomes
    GAME_OVER when the new bird count is 0 and is kept otherwise.  A tick
    that leaves the timer positive changes [dangerTimer] only. *)
Theorem tickDangerTimer_spec (s : GameState) (deltaMs now : R) :
  dangerStatus s = WARNING ->
  (dangerTimer s - deltaMs <= 0 ->
   Store.tickDangerTimer deltaMs now s =
     mkGameState
       (status (Store.resolveDanger false now s))
       (dangerStatus (Store.resolveDanger false now s))
       (phase (Store.resolveDanger false now s))
       (score (Store.resolveDanger false now s))
       (birdCount (Store.resolveDanger false now s))
       (birdX (Store.resolveDanger false now s))
       (birdY (Store.resolveDanger false now s))
       (cameraPermissionGranted (Store.resolveDanger false now s))
       (handDetected (Store.resolveDanger false now s))
       (isFist (Store.resolveDanger false now s))
       (lastHitTime (Store.resolveDanger false now s))
       0
   /\ birdCount (Store.tickDangerTimer deltaMs now s) =
        Rmax 0 (birdCount s - 1)
   /\ (1 <= birdCount s ->
       birdCount (Store.tickDangerTimer deltaMs now s) = birdCount s - 1)
   /\ dangerStatus (Store.tickDangerTimer deltaMs now s) = SAFE
   /\ dangerTimer (Store.tickDangerTimer deltaMs now s) = 0
   /\ (birdCount (Store.tickDangerTimer deltaMs now s) = 0 ->
       status (Store.tickDangerTimer deltaMs now s) = GAME_OVER)
   /\ (birdCount (Store.tickDangerTimer deltaMs now s) <> 0 ->
       status (Store.tickDangerTimer deltaMs now s) = status s))
  /\ (0 < dangerTimer s - deltaMs ->
      Store.tickDangerTimer deltaMs now s =
        mkGameState (status s) (dangerStatus s) (phase s) (score s)
          (birdCount s) (birdX s) (birdY s) (cameraPermissionGranted s)
          (handDetected s) (isFist s) (lastHitTime s)
          (dangerTimer s - deltaMs)).
Proof.
  destruct s as [st ds ph sc bc bx by_ cam hand fist lht dt].
  cbn [dangerStatus dangerTimer birdCount status phase score birdX birdY
       cameraPermissionGranted handDetected isFist lastHitTime].
  intros ->. split.
  - intros Hexp. apply leb_true in Hexp.
    store_unfold; cbn. rewrite Hexp.
    pose proof (Rmax_l 0 (bc - 1)) as Hfloor.
    repeat split; cbn; try reflexivity.
    + intros Hone. apply Rmax_right. lra.
    + intros Hzero. rewrite Hzero.
      assert (leb 0 0 = true) as -> by (apply leb_true; lra). reflexivity.
    + intros Hpos.
      assert (leb (Rmax 0 (bc - 1)) 0 = false) as ->
        by (apply leb_false; lra).
      reflexivity.
  - intros Hleft. apply leb_false in Hleft.
    store_unfold; cbn. rewrite Hleft. reflexivity.
Qed.

Lemma tickDangerTimer_spec_witness :
  dangerStatus lastBirdWarning = WARNING
  /\ dangerTimer lastBirdWarning - 16 <= 0
  /\ Store.tickDangerTimer 16 8000 lastBirdWarning =
     mkGameState GAME_OVER SAFE CORRIDOR 120 0 0 0 true true false 8000 0.
Proof.
  assert (Hw : dangerStatus lastBirdWarning = WARNING) by reflexivity.
  assert (Hexp : dangerTimer lastBirdWarning - 16 <= 0) by (cbn; lra).
  split; [exact Hw | split; [exact Hexp |]].
  destruct (tickDangerTimer_spec lastBirdWarning 16 8000 Hw) as [Hzero _].
  destruct (Hzero Hexp) as (Heq & Hcount & _ & _ & _ & Hover & _).
  assert (Hc0 : birdCount (Store.tickDangerTimer 16 8000 lastBirdWarning) = 0).
  { rewrite Hcount. cbn. apply Rmax_left. lra. }
  rewrite (GameState_eta (Store.tickDangerTimer 16 8000 lastBirdWarning)).
  rewrite (Hover Hc0), Hc0. rewrite Heq at 1 2 3 4 5 6 7 8 9 10.
  reflexivity.
Defined.

(** Settle the numeric tests of a goal whose operands are closed. *)
Ltac num_decide :=
  repeat match goal with
  | |- context [ltb ?a ?b] =>
      first [ replace (ltb a b) with true by (symmetry; apply ltb_true; lra)
            | replace (ltb a b) with false by (symmetry; apply ltb_false; lra) ]
  | |- context [leb ?a ?b] =>
      first [ replace (leb a b) with true by (symmetry; apply leb_true; lra)
            | replace (leb a b) with false by (symmetry; apply leb_false; lra) ]
  | |- context [Rmax ?a ?b] =>
      first [ replace (Rmax a b) with a by (symmetry; apply Rmax_left; lra)
            | replace (Rmax a b) with b by (symmetry; apply Rmax_right; lra) ]
  end.

Ltac store_eval :=
  repeat (store_unfold;
          cbn [fold_left run dispatch status dangerStatus phase score
               birdCount birdX birdY cameraPermissionGranted handDetected
               isFist lastHitTime dangerTimer Store.initial
               DangerStatus_eqb GamePhase_eqb GameStatus_eqb
               negb orb andb];
          num_decide).

(** C10: [resolveDanger] never writes [dangerTimer], whatever [success]
    is, so a failed manual rescue can leave [dangerStatus] SAFE next to a
    positive timer (here 2000 ms, one second into a warning); among the
    store's actions only a tick that expires and [resetGame] bring a
    non-zero [dangerTimer] to 0, and both do. *)
Theorem resolveDanger_keeps_dangerTimer :
  (forall (s : GameState) (success : bool) (now : R),
      dangerTimer (Store.resolveDanger success now s) = dangerTimer s)
  /\ (dangerStatus
        (run [TriggerDanger 5000; TickDangerTimer 1000 6000;
              ResolveDanger false 6000] (Store.resetGame Store.initial))
      = SAFE
      /\ dangerTimer
           (run [TriggerDanger 5000; TickDangerTimer 1000 6000;
                 ResolveDanger false 6000] (Store.resetGame Store.initial))
         = 2000)
  /\ (forall (a : Action) (s : GameState),
         dangerTimer s <> 0 -> dangerTimer (dispatch a s) = 0 ->
         a = ResetGame
         \/ exists deltaMs now : R,
              a = TickDangerTimer deltaMs now
              /\ dangerStatus s = WARNING
              /\ dangerTimer s - deltaMs <= 0)
  /\ (forall s : GameState, dangerTimer (Store.resetGame s) = 0)
  /\ (forall (s : GameState) (deltaMs now : R),
         dangerStatus s = WARNING -> dangerTimer s - deltaMs <= 0 ->
         dangerTimer (Store.tickDangerTimer deltaMs now s) = 0).
Proof.
  split; [| split; [| split; [| split]]].
  - intros s success now. store_unfold.
    destruct (dangerStatus s); reflexivity.
  - split; store_eval.
    + reflexivity.
    + lra.
  - intros a s Hnz Hz. destruct a; cbn [dispatch] in Hz;
      try (left; reflexivity);
      try (exfalso; apply Hnz; revert Hz;
           unfold Store.setStatus, Store.setBirdX, Store.setBirdY,
             Store.setIsFist, Store.setCameraPermission,
             Store.setHandDetected;
           store_unfold; cbn;
           repeat match goal with
                  | |- context [if ?c then _ else _] => destruct c
                  end; cbn; intros; lra).
    right. exists deltaMs, now.
    revert Hz. store_unfold.
    destruct (dangerStatus s); cbn; [intros; contradiction|].
    destruct (leb (dangerTimer s - deltaMs) 0) eqn:Hexp; cbn.
    + apply leb_true in Hexp. auto.
    + apply leb_false in Hexp. intros; lra.
  - intros s. reflexivity.
  - intros s deltaMs now Hw Hexp. store_unfold. rewrite Hw. cbn.
    apply leb_true in Hexp. rewrite Hexp. reflexivity.
Qed.

(** ** Reset *)

(** C6, as stated, fails: after the restart button's [resetGame] the
    store holds the initial values, but the set of live obstacles is not
    empty. *)
Lemma reset_obstacles_counterexample :
  ~ (status (ObstacleManager.store (ObstacleManager.onClickReset lostWorld))
       = PLAYING
     /\ phase (ObstacleManager.store (ObstacleManager.onClickReset lostWorld))
       = CORRIDOR
     /\ score (ObstacleManager.store (ObstacleManager.onClickReset lostWorld))
       = 0
     /\ birdCount (ObstacleManager.store (ObstacleManager.onClickReset lostWorld))
       = 16
     /\ dangerStatus (ObstacleManager.store (ObstacleManager.onClickReset lostWorld))
       = SAFE
     /\ dangerTimer (ObstacleManager.store (ObstacleManager.onClickReset lostWorld))
       = 0
     /\ ObstacleManager.lasers
          (ObstacleManager.comp (ObstacleManager.onClickReset lostWorld))
       = []).
Proof.
  intros (_ & _ & _ & _ & _ & _ & Hempty).
  cbn in Hempty. discriminate Hempty.
Qed.

(** C6, amended: for every prior state [resetGame] yields status PLAYING,
    phase CORRIDOR, score 0, 16 birds, [dangerStatus] SAFE and
    [dangerTimer] 0 (and resets [birdX], [birdY] and [lastHitTime] to 0,
    keeping the three input flags); the live obstacles and the spawn
    schedule, which are the component's state, are left as they were. *)
Theorem resetGame_spec (w : ObstacleManager.World) :
  Store.resetGame (ObstacleManager.store w) =
    mkGameState PLAYING SAFE CORRIDOR 0 16 0 0
      (cameraPermissionGranted (ObstacleManager.store w))
      (handDetected (ObstacleManager.store w))
      (isFist (ObstacleManager.store w)) 0 0
  /\ ObstacleManager.store (ObstacleManager.onClickReset w) =
       Store.resetGame (ObstacleManager.store w)
  /\ ObstacleManager.comp (ObstacleManager.onClickReset w) =
       ObstacleManager.comp w
  /\ ObstacleManager.lasers
       (ObstacleManager.comp (ObstacleManager.onClickReset w)) =
     ObstacleManager.lasers (ObstacleManager.comp w).
Proof. repeat split. Qed.

(** ** After the last bird *)

Lemma quiet_run (g : GameState) (acts : list Action) :
  dangerStatus g = SAFE ->
  Forall (quiet (lastHitTime g)) acts ->
  run acts g = g.
Proof.
  intros Hsafe Hq. induction Hq as [| a acts Ha _ IH]; [reflexivity|].
  cbn [run fold_left]. fold (run acts (dispatch a g)).
  assert (Hstay : dispatch a g = g).
  { destruct a; cbn in Ha; try contradiction; cbn [dispatch].
    - apply ltb_true in Ha. store_unfold. rewrite Ha, orb_true_r.
      destruct g; reflexivity.
    - destruct g; cbn in Hsafe; subst. reflexivity. }
  rewrite Hstay. exact IH.
Qed.

Lemma failedRescue_over (s : GameState) (a : Action) :
  failedRescue a s -> birdCount (dispatch a s) = 0 ->
  status (dispatch a s) = GAME_OVER /\ dangerStatus (dispatch a s) = SAFE.
Proof.
  destruct s as [st ds ph sc bc bx by_ cam hand fist lht dt].
  intros [Hw Hfail]. cbn in Hw. subst ds.
  destruct a as [| | | | | |success now|deltaMs now| | |];
    cbn in Hfail; try contradiction.
  - destruct success; [contradiction|].
    cbn [dispatch]. store_unfold; cbn. intros ->.
    assert (leb 0 0 = true) as -> by (apply leb_true; lra). auto.
  - apply leb_true in Hfail.
    cbn [dispatch]. store_unfold; cbn. rewrite Hfail. cbn. intros ->.
    assert (leb 0 0 = true) as -> by (apply leb_true; lra). auto.
Qed.

Lemma frame_idle (w : ObstacleManager.World) (delta elapsedTime now : R)
  (rnd : ObstacleManager.Randoms) :
  status (ObstacleManager.store w) <> PLAYING ->
  ObstacleManager.frame delta elapsedTime now rnd w = w.
Proof.
  intros Hnot. unfold ObstacleManager.frame.
  destruct (GameStatus_eqb (status (ObstacleManager.store w)) PLAYING) eqn:E.
  - apply GameStatus_eqb_eq in E. contradiction.
  - reflexivity.
Qed.

(** C7, as stated, fails: after the last bird is lost and the status is
    GAME_OVER, a trigger 2510 ms later (past the 2000 ms cooldown)
    re-enters WARNING, and the tick after it moves the timer. *)
Lemma gameOver_trigger_counterexample :
  birdCount afterLastBird = 0
  /\ status afterLastBird = GAME_OVER
  /\ Store.triggerDanger 10500 afterLastBird <> afterLastBird
  /\ dangerStatus (Store.triggerDanger 10500 afterLastBird) = WARNING
  /\ Store.tickDangerTimer 16 10516 (Store.triggerDanger 10500 afterLastBird)
     <> Store.triggerDanger 10500 afterLastBird.
Proof.
  unfold afterLastBird, lastBirdWarning.
  repeat split; store_eval; try reflexivity; try lra.
  - intros H. discriminate H.
  - intros H. apply (f_equal dangerTimer) in H. cbn in H. lra.
Qed.

(** C7, amended: once a failed manual rescue or a timer expiry brings the
    bird count to 0, the status is GAME_OVER and [dangerStatus] is SAFE;
    from then on any sequence of ticks and of triggers stamped less than
    2000 ms after that moment leaves the state as it is, and the frame
    callback, the caller of both, does nothing while the status is not
    PLAYING. *)
Theorem gameOver_quiescent (s : GameState) (a : Action) :
  failedRescue a s ->
  birdCount (dispatch a s) = 0 ->
  status (dispatch a s) = GAME_OVER
  /\ dangerStatus (dispatch a s) = SAFE
  /\ (forall acts : list Action,
         Forall (quiet (lastHitTime (dispatch a s))) acts ->
         run acts (dispatch a s) = dispatch a s)
  /\ (forall (w : ObstacleManager.World) (delta elapsedTime now : R)
             (rnd : ObstacleManager.Randoms),
         ObstacleManager.store w = dispatch a s ->
         ObstacleManager.frame delta elapsedTime now rnd w = w).
Proof.
  intros Hfail Hzero.
  destruct (failedRescue_over s a Hfail Hzero) as [Hover Hsafe].
  repeat split; try assumption.
  - intros acts Hq. apply quiet_run; assumption.
  - intros w delta elapsedTime now rnd Hw. apply frame_idle.
    rewrite Hw, Hover. discriminate.
Qed.

Lemma gameOver_quiescent_witness :
  failedRescue (ResolveDanger false 7990) lastBirdWarning
  /\ birdCount (dispatch (ResolveDanger false 7990) lastBirdWarning) = 0
  /\ run [TickDangerTimer 16 8006; TriggerDanger 9989; TickDangerTimer 3000 11006]
         afterLastBird = afterLastBird.
Proof.
  assert (Hfail : failedRescue (ResolveDanger false 7990) lastBirdWarning)
    by (split; [reflexivity | exact I]).
  assert (Hzero : birdCount (dispatch (ResolveDanger false 7990) lastBirdWarning) = 0).
  { unfold lastBirdWarning. store_eval. reflexivity. }
  split; [exact Hfail | split; [exact Hzero |]].
  destruct (gameOver_quiescent lastBirdWarning (ResolveDanger false 7990)
              Hfail Hzero) as (_ & _ & Hrun & _).
  apply Hrun. repeat constructor. cbn. lra.
Defined.

(** ** Invariants of a session *)

Lemma run_app (pre post : list Action) (s : GameState) :
  run (pre ++ post) s = run post (run pre s).
Proof. unfold run. apply fold_left_app. Qed.

Lemma lose_one_bird (b : R) :
  (exists n : Z, b = IZR n /\ (0 <= n <= 16)%Z) ->
  (exists n : Z, Rmax 0 (b - 1) = IZR n /\ (0 <= n <= 16)%Z)
  /\ Rmax 0 (b - 1) <= b
  /\ (Rmax 0 (b - 1) <= 0 -> Rmax 0 (b - 1) = 0)
  /\ (b = 0 -> Rmax 0 (b - 1) = 0).
Proof.
  intros (n & -> & Hn).
  assert (H0 : 0 <= IZR n) by (apply IZR_le; tauto).
  destruct (Z.eq_dec n 0) as [-> | Hpos].
  - assert (Rmax 0 (0 - 1) = 0) as Hm by (apply Rmax_left; lra).
    rewrite Hm. repeat split; try lra. exists 0%Z. split; [reflexivity | lia].
  - assert (1 <= IZR n) by (apply IZR_le; lia).
    assert (Rmax 0 (IZR n - 1) = IZR n - 1) as Hm by (apply Rmax_right; lra).
    rewrite Hm. repeat split; try lra.
    exists (n - 1)%Z. split; [rewrite minus_IZR; reflexivity | lia].
Qed.

Lemma start_inv (s : GameState) : start s -> sessionInv s /\ birdCount s = 16.
Proof.
  intros [| s0]; (split; [| reflexivity]);
    (repeat split; cbn; try discriminate; exists 16%Z; split; [reflexivity | lia]).
Qed.

Lemma step_inv (a : Action) (s : GameState) :
  gameOp a -> sessionInv s -> sessionInv (dispatch a s).
Proof.
  destruct s as [st ds ph sc bc bx by_ cam hand fist lht dt].
  intros Hop (Hph & Hwon & Hover & Hbirds). cbn in Hph, Hwon, Hover.
  unfold birdsInRange in Hbirds. cbn in Hbirds.
  destruct (lose_one_bird bc Hbirds) as (Hless & _ & Hfloor & Hstay).
  assert (Hnn : 0 <= bc).
  { destruct Hbirds as (n & -> & Hn). apply IZR_le. tauto. }
  destruct a; cbn in Hop; try contradiction; cbn [dispatch];
    unfold sessionInv, birdsInRange; store_unfold; cbn.
  - (* incrementScore *)
    num_cases; destruct ph, st; cbn; repeat split; intros;
      try discriminate; try assumption;
      try (specialize (Hph eq_refl)); try (specialize (Hwon eq_refl));
      try (specialize (Hover eq_refl)); try lra.
  - (* triggerDanger *)
    destruct ds; cbn; [destruct (ltb (now - lht) 2000)|]; cbn;
      repeat split; assumption.
  - (* resolveDanger *)
    destruct ds; cbn; [repeat split; assumption|].
    destruct success; cbn; num_cases; repeat split; intros;
      try assumption; try discriminate; auto; try lra.
  - (* tickDangerTimer *)
    destruct ds; cbn; [repeat split; assumption|].
    num_cases; cbn; repeat split; intros;
      try assumption; try discriminate; auto.
Qed.

Lemma run_inv (acts : list Action) (s : GameState) :
  Forall gameOp acts -> sessionInv s -> sessionInv (run acts s).
Proof.
  intros Hops. revert s.
  induction Hops as [| a acts Ha _ IH]; intros s Hs; [exact Hs|].
  cbn [run fold_left]. apply IH. apply step_inv; assumption.
Qed.

Lemma step_birds (a : Action) (s : GameState) :
  gameOp a -> birdsInRange s ->
  birdCount (dispatch a s) <= birdCount s
  /\ (birdCount (dispatch a s) <> birdCount s -> failedRescue a s).
Proof.
  destruct s as [st ds ph sc bc bx by_ cam hand fist lht dt].
  intros Hop Hbirds. unfold birdsInRange in Hbirds. cbn in Hbirds.
  destruct (lose_one_bird bc Hbirds) as (_ & Hle & _ & _).
  unfold failedRescue.
  destruct a; cbn in Hop; try contradiction; cbn [dispatch];
    store_unfold; cbn.
  - split; [lra | intros H; exfalso; apply H; reflexivity].
  - destruct ds; cbn; [destruct (ltb (now - lht) 2000)|]; cbn;
      (split; [lra | intros H; exfalso; apply H; reflexivity]).
  - destruct ds; cbn;
      [split; [lra | intros H; exfalso; apply H; reflexivity]|].
    destruct success; cbn.
    + split; [lra | intros H; exfalso; apply H; reflexivity].
    + split; [exact Hle | auto].
  - destruct ds; cbn;
      [split; [lra | intros H; exfalso; apply H; reflexivity]|].
    destruct (leb (dt - deltaMs) 0) eqn:Hexp; cbn.
    + apply leb_true in Hexp. split; [exact Hle | auto].
    + split; [lra | intros H; exfalso; apply H; reflexivity].
Qed.

(** C8: in every state reached from the created or the reset store by
    score increments, triggers, resolves and ticks: phase HIGH_ALTITUDE
    means the score is above 300 now, hence was at some point of the run;
    status GAME_WON means the score is at least 800; status GAME_OVER means
    no bird is left; the bird count is an integer between 0 and 16, starts
    at 16, never grows, and changes only by a failed rescue (a manual
    [resolveDanger(false)] or a timer expiry, on a pending warning). *)
Theorem session_invariants (s0 : GameState) (acts : list Action) :
  start s0 ->
  Forall gameOp acts ->
  (phase (run acts s0) = HIGH_ALTITUDE ->
   300 < score (run acts s0)
   /\ exists pre post : list Action,
        acts = pre ++ post /\ 300 < score (run pre s0))
  /\ (status (run acts s0) = GAME_WON -> 800 <= score (run acts s0))
  /\ (status (run acts s0) = GAME_OVER -> birdCount (run acts s0) = 0)
  /\ (exists n : Z, birdCount (run acts s0) = IZR n /\ (0 <= n <= 16)%Z)
  /\ birdCount s0 = 16
  /\ (forall (pre : list Action) (a : Action) (post : list Action),
         acts = pre ++ a :: post ->
         birdCount (run (pre ++ [a]) s0) <= birdCount (run pre s0)
         /\ (birdCount (run (pre ++ [a]) s0) <> birdCount (run pre s0) ->
             failedRescue a (run pre s0))).
Proof.
  intros Hstart Hops.
  destruct (start_inv s0 Hstart) as [Hinv0 Hsixteen].
  destruct (run_inv acts s0 Hops Hinv0) as (Hph & Hwon & Hover & Hbirds).
  split; [| split; [| split; [| split; [| split]]]]; try assumption.
  - intros Hhigh. split; [auto|].
    exists acts, []. rewrite app_nil_r. auto.
  - intros pre a post ->.
    apply Forall_app in Hops. destruct Hops as [Hpre Hrest].
    inversion Hrest as [| ? ? Ha _]; subst.
    rewrite run_app. cbn [run fold_left].
    apply step_birds; [exact Ha|].
    apply (run_inv pre s0 Hpre Hinv0).
Qed.

Lemma session_invariants_witness :
  start Store.initial
  /\ Forall gameOp [IncrementScore 10; TriggerDanger 5000;
                    TickDangerTimer 3000 8000]
  /\ birdCount (run [IncrementScore 10; TriggerDanger 5000;
                     TickDangerTimer 3000 8000] Store.initial)
     <= birdCount (run [IncrementScore 10; TriggerDanger 5000] Store.initial).
Proof.
  assert (Hstart : start Store.initial) by constructor.
  assert (Hops : Forall gameOp [IncrementScore 10; TriggerDanger 5000;
                                TickDangerTimer 3000 8000]).
  { repeat constructor. cbn. lra. }
  split; [exact Hstart | split; [exact Hops |]].
  destruct (session_invariants Store.initial _ Hstart Hops)
    as (_ & _ & _ & _ & _ & Hsteps).
  apply (Hsteps [IncrementScore 10; TriggerDanger 5000]
                (TickDangerTimer 3000 8000) []).
  reflexivity.
Defined.

(** ** Score and phase along a sequence of deltas *)

Lemma total_app (pre post : list R) : total (pre ++ post) = total pre + total post.
Proof.
  unfold total. induction pre as [| d pre IH]; cbn.
  - lra.
  - rewrite IH. lra.
Qed.

Lemma total_nonneg (deltas : list R) : Forall (Rle 0) deltas -> 0 <= total deltas.
Proof.
  unfold total. induction 1 as [| d deltas Hd _ IH]; cbn; lra.
Qed.

Lemma runScores_app (pre post : list R) (s : GameState) :
  runScores (pre ++ post) s = runScores post (runScores pre s).
Proof. unfold runScores. apply fold_left_app. Qed.

Lemma runScores_score (deltas : list R) (s : GameState) :
  score (runScores deltas s) = score s + total deltas.
Proof.
  revert s. induction deltas as [| d deltas IH]; intros s.
  - cbn. lra.
  - change (runScores (d :: deltas) s)
      with (runScores deltas (Store.incrementScore d s)).
    rewrite IH. unfold total. store_unfold. cbn. lra.
Qed.

(** While only non-negative deltas are added, the phase is HIGH_ALTITUDE
    exactly when the score is above 300. *)
Lemma runScores_phase (deltas : list R) (s : GameState) :
  Forall (Rle 0) deltas ->
  (phase s = HIGH_ALTITUDE <-> 300 < score s) ->
  (phase (runScores deltas s) = HIGH_ALTITUDE
   <-> 300 < score (runScores deltas s)).
Proof.
  intros Hnn. revert s.
  induction Hnn as [| d deltas Hd _ IH]; intros s Hs; [exact Hs|].
  change (runScores (d :: deltas) s)
    with (runScores deltas (Store.incrementScore d s)).
  apply IH.
  destruct s as [st ds ph sc bc bx by_ cam hand fist lht dt].
  cbn in Hs. store_unfold; cbn.
  num_cases; destruct ph; cbn; intuition (try discriminate; try lra).
Qed.

Lemma phase_not_high (s : GameState) :
  phase s <> HIGH_ALTITUDE -> phase s = CORRIDOR.
Proof. destruct (phase s); congruence. Qed.

(** C9: along any sequence of non-negative deltas applied to a state with
    score 0 and phase CORRIDOR (the created and the reset store), the score
    is the running total and never decreases, and the phase is
    HIGH_ALTITUDE exactly when the running total is above 300: it is
    CORRIDOR up to the first delta that lifts the total above 300,
    HIGH_ALTITUDE from that delta on, and never CORRIDOR again. *)
Theorem score_phase_progress (s0 : GameState) (deltas : list R) :
  score s0 = 0 ->
  phase s0 = CORRIDOR ->
  Forall (Rle 0) deltas ->
  (forall pre mid post : list R,
      deltas = pre ++ mid ++ post ->
      score (runScores pre s0) = total pre
      /\ score (runScores pre s0) <= score (runScores (pre ++ mid) s0)
      /\ (phase (runScores pre s0) = HIGH_ALTITUDE <-> 300 < total pre)
      /\ (phase (runScores pre s0) = HIGH_ALTITUDE ->
          phase (runScores (pre ++ mid) s0) = HIGH_ALTITUDE))
  /\ (forall (pre : list R) (d : R) (post : list R),
         deltas = pre ++ d :: post ->
         total pre <= 300 ->
         300 < total (pre ++ [d]) ->
         phase (runScores pre s0) = CORRIDOR
         /\ phase (runScores (pre ++ [d]) s0) = HIGH_ALTITUDE
         /\ (forall pre1 pre2 : list R,
                pre = pre1 ++ pre2 ->
                phase (runScores pre1 s0) = CORRIDOR)
         /\ (forall post1 post2 : list R,
                post = post1 ++ post2 ->
                phase (runScores (pre ++ d :: post1) s0) = HIGH_ALTITUDE)).
Proof.
  intros Hscore Hphase Hnn.
  assert (Hstart : phase s0 = HIGH_ALTITUDE <-> 300 < score s0).
  { rewrite Hscore, Hphase. split; [discriminate | lra]. }
  assert (Hchar : forall ds : list R, Forall (Rle 0) ds ->
             (phase (runScores ds s0) = HIGH_ALTITUDE <-> 300 < total ds)).
  { intros ds Hds.
    pose proof (runScores_phase ds s0 Hds Hstart) as H.
    rewrite runScores_score, Hscore in H.
    rewrite H. split; intros; lra. }
  split.
  - intros pre mid post ->.
    apply Forall_app in Hnn. destruct Hnn as [Hpre Hrest].
    apply Forall_app in Hrest. destruct Hrest as [Hmid _].
    pose proof (total_nonneg mid Hmid) as Hmid0.
    rewrite !runScores_score, Hscore, total_app.
    repeat split; try lra.
    + apply Hchar; assumption.
    + apply Hchar; assumption.
    + intros Hhigh. apply Hchar in Hhigh; [| assumption].
      apply Hchar; [apply Forall_app; auto|].
      rewrite total_app. lra.
  - intros pre d post -> Hbelow Habove.
    apply Forall_app in Hnn. destruct Hnn as [Hpre Hrest].
    inversion Hrest as [| ? ? Hd Hpost]; subst.
    assert (Hpd : Forall (Rle 0) (pre ++ [d]))
      by (apply Forall_app; auto).
    repeat split.
    + apply phase_not_high. rewrite (Hchar pre Hpre). lra.
    + apply Hchar; assumption.
    + intros pre1 pre2 ->.
      apply Forall_app in Hpre. destruct Hpre as [Hpre1 Hpre2].
      pose proof (total_nonneg pre2 Hpre2).
      rewrite total_app in Hbelow.
      apply phase_not_high. rewrite (Hchar pre1 Hpre1). lra.
    + intros post1 post2 ->.
      apply Forall_app in Hpost. destruct Hpost as [Hpost1 _].
      pose proof (total_nonneg post1 Hpost1).
      replace (pre ++ d :: post1) with ((pre ++ [d]) ++ post1)
        by (rewrite <- app_assoc; reflexivity).
      apply Hchar; [apply Forall_app; auto|].
      rewrite total_app. lra.
Qed.

Lemma score_phase_progress_witness :
  score Store.initial = 0
  /\ phase Store.initial = CORRIDOR
  /\ Forall (Rle 0) [150; 200; 10]
  /\ phase (runScores [150] Store.initial) = CORRIDOR
  /\ phase (runScores [150; 200] Store.initial) = HIGH_ALTITUDE
  /\ phase (runScores [150; 200; 10] Store.initial) = HIGH_ALTITUDE.
Proof.
  assert (Hnn : Forall (Rle 0) [150; 200; 10]) by (repeat constructor; lra).
  destruct (score_phase_progress Store.initial [150; 200; 10]
              eq_refl eq_refl Hnn) as [_ Hfirst].
  destruct (Hfirst [150] 200 [10] eq_refl) as (Hbefore & Hat & _ & Hafter).
  - cbn. lra.
  - cbn. lra.
  - repeat split; try assumption.
    apply (Hafter [10] []). reflexivity.
Defined.

(** ** The collision test *)

Lemma clamp_cases (t len : R) :
  0 <= len ->
  (t < 0 -> CollisionSpec.clamp t len = 0)
  /\ (len < t -> CollisionSpec.clamp t len = len)
  /\ (0 <= t <= len -> CollisionSpec.clamp t len = t).
Proof.
  intros Hlen. unfold CollisionSpec.clamp, Rmax, Rmin.
  repeat split; intros;
    destruct (Rle_dec t len); destruct (Rle_dec 0 _); lra.
Qed.

Lemma direction_unit (side angle : R) :
  fst (CollisionSpec.direction side angle) ^ 2
  + snd (CollisionSpec.direction side angle) ^ 2 = 1.
Proof.
  pose proof (sin2_cos2 angle) as Hunit. unfold Rsqr in Hunit.
  unfold CollisionSpec.direction, CollisionSpec.rotate, CollisionSpec.base.
  destruct (Req_dec_T side 1); cbn [fst snd]; nra.
Qed.

(** The closest point the code computes is the projection parameter
    clamped to the segment. *)
Lemma closest_refines (currentBirdX currentBirdY : R)
  (laser : ObstacleManager.Laser) :
  0 <= ObstacleManager.width laser ->
  ObstacleManager.closest currentBirdX currentBirdY laser =
  CollisionSpec.closestPoint (currentBirdX, currentBirdY)
    (ObstacleManager.x laser, ObstacleManager.y laser)
    (CollisionSpec.direction (ObstacleManager.side laser)
                             (ObstacleManager.angle laser))
    (ObstacleManager.width laser).
Proof.
  intros Hlen.
  unfold ObstacleManager.closest, CollisionSpec.closestPoint,
    CollisionSpec.direction, CollisionSpec.rotate, CollisionSpec.base,
    CollisionSpec.project, eqb, gtb.
  destruct (Req_dec_T (ObstacleManager.side laser) 1); cbn [fst snd];
    match goal with
    | |- context [CollisionSpec.clamp ?t ?len] =>
        destruct (clamp_cases t len Hlen) as (Hneg & Hfar & Hmid);
        destruct (ltb t 0) eqn:E0;
        [ apply ltb_true in E0; rewrite (Hneg E0)
        | apply ltb_false in E0;
          destruct (ltb len t) eqn:E1;
          [ apply ltb_true in E1; rewrite (Hfar E1)
          | apply ltb_false in E1; rewrite (Hmid (conj E0 E1)) ] ]
    end;
    f_equal; lra.
Qed.

Lemma hits_iff (delta currentBirdX currentBirdY flockRadius : R)
  (laser : ObstacleManager.Laser) :
  0 <= ObstacleManager.width laser ->
  CollisionSpec.inBand
    (ObstacleManager.z laser + ObstacleManager.LASER_SPEED * delta) ->
  (ObstacleManager.hits delta currentBirdX currentBirdY flockRadius laser
     = true
   <-> CollisionSpec.hit (currentBirdX, currentBirdY)
         (ObstacleManager.x laser, ObstacleManager.y laser)
         (CollisionSpec.direction (ObstacleManager.side laser)
                                  (ObstacleManager.angle laser))
         (ObstacleManager.width laser)
         (ObstacleManager.visualRadius (ObstacleManager.type laser))
         flockRadius).
Proof.
  intros Hlen Hband. unfold CollisionSpec.inBand in Hband.
  unfold ObstacleManager.hits. rewrite Rminus_0_r.
  apply ltb_true in Hband. rewrite Hband.
  rewrite (closest_refines _ _ _ Hlen).
  unfold CollisionSpec.hit, CollisionSpec.distSq.
  destruct (CollisionSpec.closestPoint _ _ _ _) as [cx cy]. cbn [fst snd].
  rewrite ltb_true.
  replace ((ObstacleManager.visualRadius (ObstacleManager.type laser)
            + flockRadius) ^ 2)
    with ((ObstacleManager.visualRadius (ObstacleManager.type laser)
           + flockRadius)
          * (ObstacleManager.visualRadius (ObstacleManager.type laser)
             + flockRadius)) by ring.
  tauto.
Qed.

Lemma hits_out_of_band (delta currentBirdX currentBirdY flockRadius : R)
  (laser : ObstacleManager.Laser) :
  ~ CollisionSpec.inBand
      (ObstacleManager.z laser + ObstacleManager.LASER_SPEED * delta) ->
  ObstacleManager.hits delta currentBirdX currentBirdY flockRadius laser
    = false.
Proof.
  unfold CollisionSpec.inBand, ObstacleManager.hits. rewrite Rminus_0_r.
  intros Hout.
  destruct (ltb _ 3) eqn:E; [apply ltb_true in E; contradiction | reflexivity].
Qed.

Lemma scenario_direction : CollisionSpec.direction (-1) 0 = (1, 0).
Proof.
  unfold CollisionSpec.direction, CollisionSpec.rotate, CollisionSpec.base.
  destruct (Req_dec_T (-1) 1) as [Habs | _]; [lra|].
  cbn [fst snd]. rewrite cos_0, sin_0. f_equal; lra.
Qed.

Lemma scenario_band : CollisionSpec.inBand (0 + ObstacleManager.LASER_SPEED * 0).
Proof.
  unfold CollisionSpec.inBand, ObstacleManager.LASER_SPEED.
  replace (0 + 60 * 0) with 0 by lra. rewrite Rabs_R0. lra.
Qed.

Lemma scenario_hit :
  CollisionSpec.hit (5, 0) (0, 0) (1, 0) 10 0.8 1
  /\ ~ CollisionSpec.hit (20, 0) (0, 0) (1, 0) 10 0.8 1.
Proof.
  unfold CollisionSpec.hit, CollisionSpec.distSq, CollisionSpec.closestPoint,
    CollisionSpec.project. cbn [fst snd].
  destruct (clamp_cases ((5 - 0) * 1 + (0 - 0) * 0) 10) as (_ & _ & Hmid);
    [lra|].
  destruct (clamp_cases ((20 - 0) * 1 + (0 - 0) * 0) 10) as (_ & Hfar & _);
    [lra|].
  rewrite Hmid by lra. rewrite Hfar by lra. split; [lra | intros H; lra].
Qed.

(** C1: the collision test.  The direction the test uses is the base
    vector ((-1,0) when [side] is 1, (1,0) otherwise) rotated by [angle],
    a unit vector; the point it measures to is the origin plus the
    projection parameter clamped to [0, length] times that direction; for
    a laser whose advanced depth is within 3 of the flock plane a hit is
    reported, by a call of [triggerDanger], exactly when the squared
    distance from the flock to that point is below the square of visual
    radius plus flock radius, and the laser stays in the live list; outside
    the band no hit is reported.  For the beam at (0,0) along (1,0) of
    length 10, with flock radius 1 and visual radius 0.8, a flock at (5,0)
    is a hit and a flock at (20,0) is not. *)
Theorem collision_test_exact
  (delta now currentBirdX currentBirdY flockRadius : R)
  (laser : ObstacleManager.Laser) (st : GameState)
  (nextLasers : list ObstacleManager.Laser) :
  0 <= ObstacleManager.width laser ->
  fst (CollisionSpec.direction (ObstacleManager.side laser)
                               (ObstacleManager.angle laser)) ^ 2
  + snd (CollisionSpec.direction (ObstacleManager.side laser)
                                 (ObstacleManager.angle laser)) ^ 2 = 1
  /\ ObstacleManager.closest currentBirdX currentBirdY laser =
     CollisionSpec.closestPoint (currentBirdX, currentBirdY)
       (ObstacleManager.x laser, ObstacleManager.y laser)
       (CollisionSpec.direction (ObstacleManager.side laser)
                                (ObstacleManager.angle laser))
       (ObstacleManager.width laser)
  /\ (CollisionSpec.inBand
        (ObstacleManager.z laser + ObstacleManager.LASER_SPEED * delta) ->
      (ObstacleManager.hits delta currentBirdX currentBirdY flockRadius laser
         = true
       <-> CollisionSpec.hit (currentBirdX, currentBirdY)
             (ObstacleManager.x laser, ObstacleManager.y laser)
             (CollisionSpec.direction (ObstacleManager.side laser)
                                      (ObstacleManager.angle laser))
             (ObstacleManager.width laser)
             (ObstacleManager.visualRadius (ObstacleManager.type laser))
             flockRadius)
      /\ ObstacleManager.laserStep delta now currentBirdX currentBirdY
           flockRadius (st, nextLasers) laser =
         ((if ObstacleManager.hits delta currentBirdX currentBirdY
                flockRadius laser
           then Store.triggerDanger now st else st),
          nextLasers ++
          [ObstacleManager.mkLaser (ObstacleManager.id laser)
             (ObstacleManager.z laser + ObstacleManager.LASER_SPEED * delta)
             (ObstacleManager.x laser) (ObstacleManager.y laser)
             (ObstacleManager.width laser) (ObstacleManager.side laser)
             (ObstacleManager.angle laser) (ObstacleManager.type laser)]))
  /\ (~ CollisionSpec.inBand
          (ObstacleManager.z laser + ObstacleManager.LASER_SPEED * delta) ->
      ObstacleManager.hits delta currentBirdX currentBirdY flockRadius laser
        = false)
  /\ CollisionSpec.direction (ObstacleManager.side scenarioBeam)
                             (ObstacleManager.angle scenarioBeam) = (1, 0)
  /\ ObstacleManager.visualRadius (ObstacleManager.type scenarioBeam) = 0.8
  /\ ObstacleManager.hits 0 5 0 1 scenarioBeam = true
  /\ ObstacleManager.hits 0 20 0 1 scenarioBeam = false.
Proof.
  intros Hlen.
  split; [apply direction_unit|].
  split; [apply closest_refines; exact Hlen|].
  split.
  { intros Hband. split; [apply hits_iff; assumption|].
    unfold ObstacleManager.laserStep, gtb.
    unfold CollisionSpec.inBand in Hband.
    apply Rabs_def2 in Hband.
    assert (ltb 20 (ObstacleManager.z laser
                    + ObstacleManager.LASER_SPEED * delta) = false) as ->
      by (apply ltb_false; lra).
    reflexivity. }
  split; [apply hits_out_of_band|].
  split; [exact scenario_direction|].
  split; [reflexivity|].
  assert (Hten : 0 <= ObstacleManager.width scenarioBeam) by (cbn; lra).
  pose proof (hits_iff 0 5 0 1 scenarioBeam Hten scenario_band) as Hnear.
  pose proof (hits_iff 0 20 0 1 scenarioBeam Hten scenario_band) as Hfar.
  cbn [ObstacleManager.x ObstacleManager.y ObstacleManager.side
       ObstacleManager.angle ObstacleManager.width ObstacleManager.type
       scenarioBeam ObstacleManager.visualRadius] in Hnear, Hfar.
  rewrite scenario_direction in Hnear, Hfar.
  destruct scenario_hit as [Hin Hout].
  split.
  - apply Hnear. exact Hin.
  - destruct (ObstacleManager.hits 0 20 0 1 scenarioBeam); [|reflexivity].
    exfalso. apply Hout. apply Hfar. reflexivity.
Qed.

Lemma collision_test_exact_witness :
  0 <= ObstacleManager.width scenarioBeam
  /\ ObstacleManager.closest 20 0 scenarioBeam =
     CollisionSpec.closestPoint (20, 0) (0, 0)
       (CollisionSpec.direction (-1) 0) 10.
Proof.
  assert (Hten : 0 <= ObstacleManager.width scenarioBeam) by (cbn; lra).
  split; [exact Hten|].
  exact (proj1 (proj2 (collision_test_exact 0 0 20 0 1 scenarioBeam
                         Store.initial [] Hten))).
Defined.

(** ** Live obstacles have a non-negative length *)

Lemma spawnLaser_length (isPhase1 : bool) (rnd : ObstacleManager.Randoms) :
  0 <= ObstacleManager.rnd_length rnd ->
  nonnegLength (ObstacleManager.spawnLaser isPhase1 rnd).
Proof.
  intros Hr. unfold nonnegLength, ObstacleManager.spawnLaser.
  destruct isPhase1; cbn; lra.
Qed.

Lemma laserStep_lengths (delta now bx by_ fr : R) (st : GameState)
  (acc : list ObstacleManager.Laser) (laser : ObstacleManager.Laser) :
  Forall nonnegLength acc -> nonnegLength laser ->
  Forall nonnegLength
    (snd (ObstacleManager.laserStep delta now bx by_ fr (st, acc) laser)).
Proof.
  intros Hacc Hlaser. unfold ObstacleManager.laserStep.
  destruct (gtb _ 20); cbn [snd]; [exact Hacc|].
  apply Forall_app. split; [exact Hacc|].
  constructor; [exact Hlaser | constructor].
Qed.

Lemma loop_lengths (delta now bx by_ fr : R)
  (prev : list ObstacleManager.Laser) :
  Forall nonnegLength prev ->
  forall acc : GameState * list ObstacleManager.Laser,
    Forall nonnegLength (snd acc) ->
    Forall nonnegLength
      (snd (fold_left (ObstacleManager.laserStep delta now bx by_ fr)
                      prev acc)).
Proof.
  induction 1 as [| laser prev Hlaser _ IH]; intros [st acc] Hacc;
    cbn [fold_left]; [exact Hacc|].
  apply IH.
  destruct (ObstacleManager.laserStep delta now bx by_ fr (st, acc) laser)
    as [st' acc'] eqn:E.
  change acc' with (snd (st', acc')). rewrite <- E.
  apply laserStep_lengths; assumption.
Qed.

(** Every frame keeps the lengths of the live obstacles non-negative,
    [Math.random()] being non-negative. *)
Lemma frame_lengths (delta elapsedTime now : R)
  (rnd : ObstacleManager.Randoms) (w : ObstacleManager.World) :
  0 <= ObstacleManager.rnd_length rnd ->
  Forall nonnegLength (ObstacleManager.lasers (ObstacleManager.comp w)) ->
  Forall nonnegLength
    (ObstacleManager.lasers
       (ObstacleManager.comp
          (ObstacleManager.frame delta elapsedTime now rnd w))).
Proof.
  intros Hr Hlive. unfold ObstacleManager.frame.
  destruct (negb _); [exact Hlive|].
  match goal with
  | |- context [fold_left (ObstacleManager.laserStep _ _ ?bx ?by_ ?fr)
                          ?prev ?acc] =>
      pose proof (loop_lengths delta now bx by_ fr prev) as Hloop;
      destruct (fold_left (ObstacleManager.laserStep delta now bx by_ fr)
                          prev acc) as [st1 nextLasers] eqn:E
  end.
  cbn [ObstacleManager.lasers ObstacleManager.comp].
  match type of E with
  | fold_left _ ?prev ?acc = _ =>
      assert (Hprev : Forall nonnegLength prev)
  end.
  { destruct (gtb _ _); [| exact Hlive].
    apply Forall_app. split; [exact Hlive|].
    constructor; [apply spawnLaser_length; exact Hr | constructor]. }
  match type of E with
  | fold_left _ _ ?acc = _ =>
      pose proof (Hloop Hprev acc (Forall_nil nonnegLength)) as Hnext
  end.
  rewrite E in Hnext. exact Hnext.
Qed.

(** * Further properties of the store *)

(** X1: while the first tick does not exhaust the timer, two ticks in a
    row amount to one tick by the sum of their deltas, expiry included
    (the clock reading of the second tick is the one that is kept). *)
Theorem tickDangerTimer_compose (s : GameState) (d1 d2 now1 now2 : R) :
  0 < dangerTimer s - d1 ->
  Store.tickDangerTimer d2 now2 (Store.tickDangerTimer d1 now1 s) =
  Store.tickDangerTimer (d1 + d2) now2 s.
Proof.
  destruct s as [st ds ph sc bc bx by_ cam hand fist lht dt].
  cbn [dangerTimer]. intros Hleft.
  store_unfold; cbn. destruct ds; cbn; [reflexivity|].
  assert (leb (dt - d1) 0 = false) as -> by (apply leb_false; exact Hleft).
  cbn. replace (dt - (d1 + d2)) with (dt - d1 - d2) by lra.
  destruct (leb (dt - d1 - d2) 0); reflexivity.
Qed.

Lemma tickDangerTimer_compose_witness :
  0 < dangerTimer (Store.triggerDanger 5000 Store.initial) - 1000
  /\ Store.tickDangerTimer 2000 8000
       (Store.tickDangerTimer 1000 6000
          (Store.triggerDanger 5000 Store.initial)) =
     Store.tickDangerTimer (1000 + 2000) 8000
       (Store.triggerDanger 5000 Store.initial).
Proof.
  assert (H : 0 < dangerTimer (Store.triggerDanger 5000 Store.initial) - 1000).
  { store_eval. lra. }
  split; [exact H|].
  exact (tickDangerTimer_compose _ 1000 2000 6000 8000 H).
Defined.

(** X2: every resolution of a warning, by [resolveDanger] or by a timer
    expiry, opens a cooldown: a trigger stamped less than 2000 ms after it
    changes nothing, and one stamped 2000 ms or more after it raises a new
    warning with 3000 ms on the clock. *)
Theorem cooldown_after_resolution (s : GameState) (later : R) (a : Action) :
  dangerStatus s = WARNING ->
  (exists success now, a = ResolveDanger success now)
  \/ (exists deltaMs now,
        a = TickDangerTimer deltaMs now /\ dangerTimer s - deltaMs <= 0) ->
  dangerStatus (dispatch a s) = SAFE
  /\ (later - lastHitTime (dispatch a s) < 2000 ->
      Store.triggerDanger later (dispatch a s) = dispatch a s)
  /\ (2000 <= later - lastHitTime (dispatch a s) ->
      dangerStatus (Store.triggerDanger later (dispatch a s)) = WARNING
      /\ dangerTimer (Store.triggerDanger later (dispatch a s)) = 3000
      /\ lastHitTime (Store.triggerDanger later (dispatch a s)) = later
      /\ birdCount (Store.triggerDanger later (dispatch a s)) =
         birdCount (dispatch a s)).
Proof.
  destruct s as [st ds ph sc bc bx by_ cam hand fist lht dt].
  cbn [dangerStatus dangerTimer]. intros -> Hres.
  assert (Hshape : exists st' bc' now' dt',
             dispatch a (mkGameState st WARNING ph sc bc bx by_ cam hand
                           fist lht dt) =
             mkGameState st' SAFE ph sc bc' bx by_ cam hand fist now' dt').
  { destruct Hres as [(success & now & ->) | (deltaMs & now & -> & Hexp)];
      cbn [dispatch]; store_unfold; cbn.
    - eauto.
    - apply leb_true in Hexp. rewrite Hexp. eauto. }
  destruct Hshape as (st' & bc' & now' & dt' & ->).
  cbn [dangerStatus lastHitTime]. split; [reflexivity|]. split.
  - intros Hcool. apply ltb_true in Hcool.
    store_unfold; cbn. rewrite Hcool. reflexivity.
  - intros Hlate.
    assert (ltb (later - now') 2000 = false) as Hoff
      by (apply ltb_false; exact Hlate).
    store_unfold; cbn. rewrite Hoff. cbn. auto.
Qed.

Lemma cooldown_after_resolution_witness :
  dangerStatus lastBirdWarning = WARNING
  /\ dangerStatus
       (Store.triggerDanger 10500
          (dispatch (ResolveDanger true 7990) lastBirdWarning)) = WARNING.
Proof.
  assert (Hw : dangerStatus lastBirdWarning = WARNING) by reflexivity.
  split; [exact Hw|].
  destruct (cooldown_after_resolution lastBirdWarning 10500
              (ResolveDanger true 7990) Hw) as (_ & _ & Hlate).
  - left. exists true, 7990. reflexivity.
  - apply Hlate. unfold lastBirdWarning. store_eval. lra.
Defined.

Lemma incrementScore_won (d : R) (s : GameState) :
  (status s = GAME_WON -> status (Store.incrementScore d s) = GAME_WON)
  /\ (800 <= score (Store.incrementScore d s) ->
      status (Store.incrementScore d s) = GAME_WON).
Proof.
  destruct s as [st ds ph sc bc bx by_ cam hand fist lht dt].
  store_unfold; cbn. split.
  - intros ->. cbn. rewrite andb_false_r. reflexivity.
  - intros Hwin. apply leb_true in Hwin. rewrite Hwin.
    destruct st; reflexivity.
Qed.

(** X3: score increments never take the status away from GAME_WON,
    whatever the deltas, and after at least one increment a score of 800
    or more always comes with status GAME_WON. *)
Theorem won_is_kept (deltas : list R) (s : GameState) :
  (status s = GAME_WON -> status (runScores deltas s) = GAME_WON)
  /\ (deltas <> [] -> 800 <= score (runScores deltas s) ->
      status (runScores deltas s) = GAME_WON).
Proof.
  split.
  - revert s. induction deltas as [| d deltas IH]; intros s Hwon;
      [exact Hwon|].
    change (runScores (d :: deltas) s)
      with (runScores deltas (Store.incrementScore d s)).
    apply IH. apply (proj1 (incrementScore_won d s)). exact Hwon.
  - intros Hne. destruct (exists_last Hne) as (pre & d & ->).
    rewrite runScores_app.
    change (runScores [d] (runScores pre s))
      with (Store.incrementScore d (runScores pre s)).
    apply (proj2 (incrementScore_won d (runScores pre s))).
Qed.

(** * Further properties of the frame callback *)

Lemma frame_playing (delta elapsedTime now : R)
  (rnd : ObstacleManager.Randoms) (w : ObstacleManager.World) :
  status (ObstacleManager.store w) = PLAYING ->
  ObstacleManager.store
    (ObstacleManager.frame delta elapsedTime now rnd w) =
  fst (fold_left
         (ObstacleManager.laserStep delta now
            (birdX (ObstacleManager.store w) * ObstacleManager.SCENE_WIDTH)
            (birdY (ObstacleManager.store w) * ObstacleManager.SCENE_HEIGHT + 5)
            (if isFist (ObstacleManager.store w) then 1 else 4))
         (inFlight elapsedTime rnd w)
         (Store.tickDangerTimer (delta * 1000) now (ObstacleManager.store w),
          []))
  /\ ObstacleManager.lasers
       (ObstacleManager.comp
          (ObstacleManager.frame delta elapsedTime now rnd w)) =
     snd (fold_left
            (ObstacleManager.laserStep delta now
               (birdX (ObstacleManager.store w) * ObstacleManager.SCENE_WIDTH)
               (birdY (ObstacleManager.store w) * ObstacleManager.SCENE_HEIGHT + 5)
               (if isFist (ObstacleManager.store w) then 1 else 4))
            (inFlight elapsedTime rnd w)
            (Store.tickDangerTimer (delta * 1000) now
               (ObstacleManager.store w), [])).
Proof.
  intros Hplay. unfold ObstacleManager.frame, inFlight. rewrite Hplay.
  cbn [GameStatus_eqb negb].
  destruct (fold_left _ _ _) as [st1 nextLasers]. split; reflexivity.
Qed.

Lemma laserStep_pair (delta now bx by_ fr : R) (st : GameState)
  (acc : list ObstacleManager.Laser) (laser : ObstacleManager.Laser) :
  ObstacleManager.laserStep delta now bx by_ fr (st, acc) laser =
  ((if retires delta laser then Store.incrementScore 10 else fun t => t)
     (if ObstacleManager.hits delta bx by_ fr laser
      then Store.triggerDanger now st else st),
   acc ++ (if retires delta laser then [] else [advance delta laser])).
Proof.
  unfold ObstacleManager.laserStep, retires, advance.
  destruct (gtb _ 20); [rewrite app_nil_r|]; reflexivity.
Qed.

Lemma loop_lasers (delta now bx by_ fr : R)
  (prev : list ObstacleManager.Laser) :
  forall (st : GameState) (acc : list ObstacleManager.Laser),
    snd (fold_left (ObstacleManager.laserStep delta now bx by_ fr)
                   prev (st, acc)) =
    acc ++ map (advance delta)
               (filter (fun l => negb (retires delta l)) prev).
Proof.
  induction prev as [| laser prev IH]; intros st acc; cbn [fold_left].
  - cbn. rewrite app_nil_r. reflexivity.
  - rewrite laserStep_pair, IH. cbn [filter].
    destruct (retires delta laser); cbn [negb map].
    + rewrite app_nil_r. reflexivity.
    + rewrite <- app_assoc. reflexivity.
Qed.

Lemma loop_store (delta now bx by_ fr : R)
  (prev : list ObstacleManager.Laser) :
  forall (st : GameState) (acc : list ObstacleManager.Laser),
    exists acts : list Action,
      Forall gameOp acts
      /\ fst (fold_left (ObstacleManager.laserStep delta now bx by_ fr)
                        prev (st, acc)) = run acts st.
Proof.
  induction prev as [| laser prev IH]; intros st acc; cbn [fold_left].
  - exists []. split; [constructor | reflexivity].
  - rewrite laserStep_pair.
    match goal with
    | |- context [fold_left _ prev (?st', ?acc')] =>
        destruct (IH st' acc') as (acts & Hops & Heq)
    end.
    rewrite Heq.
    assert (Hten : gameOp (IncrementScore 10)) by (cbn; lra).
    destruct (ObstacleManager.hits delta bx by_ fr laser);
      destruct (retires delta laser).
    + exists (TriggerDanger now :: IncrementScore 10 :: acts).
      split; [| reflexivity].
      constructor; [exact I | constructor; [exact Hten | exact Hops]].
    + exists (TriggerDanger now :: acts).
      split; [| reflexivity]. constructor; [exact I | exact Hops].
    + exists (IncrementScore 10 :: acts).
      split; [| reflexivity]. constructor; [exact Hten | exact Hops].
    + exists acts. auto.
Qed.

Lemma loop_birds (delta now bx by_ fr : R)
  (prev : list ObstacleManager.Laser) :
  forall (st : GameState) (acc : list ObstacleManager.Laser),
    birdCount (fst (fold_left (ObstacleManager.laserStep delta now bx by_ fr)
                              prev (st, acc))) = birdCount st.
Proof.
  induction prev as [| laser prev IH]; intros st acc; cbn [fold_left].
  - reflexivity.
  - rewrite laserStep_pair, IH.
    assert (Htrig : forall t, birdCount (Store.triggerDanger now t) = birdCount t).
    { intros t. store_unfold. destruct (_ || _); reflexivity. }
    destruct (ObstacleManager.hits delta bx by_ fr laser);
      destruct (retires delta laser);
      change (birdCount (Store.incrementScore 10 ?t)) with (birdCount t);
      rewrite ?Htrig; reflexivity.
Qed.

Lemma loop_score (delta now bx by_ fr : R)
  (prev : list ObstacleManager.Laser) :
  forall (st : GameState) (acc : list ObstacleManager.Laser),
    score (fst (fold_left (ObstacleManager.laserStep delta now bx by_ fr)
                          prev (st, acc))) =
    score st + 10 * INR (length (filter (retires delta) prev)).
Proof.
  induction prev as [| laser prev IH]; intros st acc; cbn [fold_left].
  - cbn. lra.
  - rewrite laserStep_pair, IH. cbn [filter].
    assert (Htrig : forall t, score (Store.triggerDanger now t) = score t).
    { intros t. store_unfold.
      destruct (_ || _); reflexivity. }
    assert (Hinc : forall t, score (Store.incrementScore 10 t) = score t + 10).
    { intros t. reflexivity. }
    destruct (ObstacleManager.hits delta bx by_ fr laser);
      destruct (retires delta laser);
      cbn [length]; rewrite ?S_INR, ?Hinc, ?Htrig; lra.
Qed.

Lemma filter_split_length {A : Type} (f : A -> bool) (l : list A) :
  (length (filter (fun a => negb (f a)) l) + length (filter f l)
   = length l)%nat.
Proof.
  induction l as [| a l IH]; [reflexivity|].
  cbn [filter]. destruct (f a); cbn [negb length]; lia.
Qed.

(** X4: a played frame moves every laser of the loop's list (the live
    ones and, when a spawn is due, the new one) forward by
    [LASER_SPEED * delta], drops exactly those that end beyond depth 20,
    and keeps the others in their order with every other field intact; it
    adds 10 to the score for each laser dropped, so that the lasers kept
    and the lasers scored add up to the list. *)
Theorem frame_advances_and_scores (delta elapsedTime now : R)
  (rnd : ObstacleManager.Randoms) (w : ObstacleManager.World) :
  status (ObstacleManager.store w) = PLAYING ->
  ObstacleManager.lasers
    (ObstacleManager.comp (ObstacleManager.frame delta elapsedTime now rnd w))
  = map (advance delta)
        (filter (fun l => negb (retires delta l)) (inFlight elapsedTime rnd w))
  /\ score (ObstacleManager.store
              (ObstacleManager.frame delta elapsedTime now rnd w))
     = score (ObstacleManager.store w)
       + 10 * INR (length (filter (retires delta) (inFlight elapsedTime rnd w)))
  /\ (length (ObstacleManager.lasers
                (ObstacleManager.comp
                   (ObstacleManager.frame delta elapsedTime now rnd w)))
      + length (filter (retires delta) (inFlight elapsedTime rnd w))
      = length (inFlight elapsedTime rnd w))%nat
  /\ Forall (fun l => ObstacleManager.z l <= 20)
       (ObstacleManager.lasers
          (ObstacleManager.comp
             (ObstacleManager.frame delta elapsedTime now rnd w))).
Proof.
  intros Hplay.
  destruct (frame_playing delta elapsedTime now rnd w Hplay) as [Hst Hls].
  assert (Hlasers :
    ObstacleManager.lasers
      (ObstacleManager.comp (ObstacleManager.frame delta elapsedTime now rnd w))
    = map (advance delta)
          (filter (fun l => negb (retires delta l)) (inFlight elapsedTime rnd w))).
  { rewrite Hls, loop_lasers. reflexivity. }
  split; [exact Hlasers|]. split; [| split].
  - rewrite Hst, loop_score. f_equal.
    store_unfold. destruct (dangerStatus (ObstacleManager.store w)); cbn;
      [reflexivity|]. destruct (leb _ 0); reflexivity.
  - rewrite Hlasers, length_map. apply filter_split_length.
  - rewrite Hlasers. apply Forall_map. apply Forall_forall.
    intros l Hin. apply filter_In in Hin. destruct Hin as [_ Hkeep].
    unfold retires, gtb in Hkeep. apply negb_true_iff in Hkeep.
    apply ltb_false in Hkeep. exact Hkeep.
Qed.

(** A played world with a beam about to leave (depth 19) and a pillar on
    its way (depth -100), no spawn due. *)
Lemma frame_advances_and_scores_witness :
  score (ObstacleManager.store
           (ObstacleManager.frame 0.05 7.1 9000 
              (ObstacleManager.mkRandoms 0 0 0 0 0 0 0)
              (ObstacleManager.mkWorld
                 (mkGameState PLAYING SAFE CORRIDOR 120 16 0 0 true true
                    false 0 0)
                 (ObstacleManager.mkComponent
                    [ObstacleManager.mkLaser 1 19 0 0 45 1 (PI / 4)
                       ObstacleManager.beam;
                     ObstacleManager.mkLaser 2 (-100) 0 (-50) 120 (-1)
                       (PI / 2) ObstacleManager.pillar]
                    7000 450))))
  = 130.
Proof.
  match goal with
  | |- score (ObstacleManager.store (ObstacleManager.frame ?d ?e ?n ?r ?w)) = _ =>
      destruct (frame_advances_and_scores d e n r w eq_refl)
        as (_ & Hscore & _)
  end.
  rewrite Hscore. unfold inFlight, retires, gtb.
  cbn [ObstacleManager.lastSpawnTime ObstacleManager.nextSpawnInterval
       ObstacleManager.comp ObstacleManager.lasers ObstacleManager.store
       score].
  assert (ltb 450 (7.1 * 1000 - 7000) = false) as ->
    by (apply ltb_false; lra).
  cbn [filter ObstacleManager.z]. unfold ObstacleManager.LASER_SPEED.
  assert (ltb 20 (19 + 60 * 0.05) = true) as -> by (apply ltb_true; lra).
  assert (ltb 20 (-100 + 60 * 0.05) = false) as -> by (apply ltb_false; lra).
  cbn. lra.
Defined.

(** X5: a played frame changes the bird count only through its one timer
    tick: a bird is lost (not below 0) exactly when a warning is pending
    and [delta * 1000] exhausts the timer; the hits detected in the frame
    never cost a bird by themselves. *)
Theorem frame_birds (delta elapsedTime now : R)
  (rnd : ObstacleManager.Randoms) (w : ObstacleManager.World) :
  status (ObstacleManager.store w) = PLAYING ->
  (dangerStatus (ObstacleManager.store w) = WARNING
   /\ dangerTimer (ObstacleManager.store w) - delta * 1000 <= 0 ->
   birdCount (ObstacleManager.store
                (ObstacleManager.frame delta elapsedTime now rnd w))
   = Rmax 0 (birdCount (ObstacleManager.store w) - 1))
  /\ (~ (dangerStatus (ObstacleManager.store w) = WARNING
         /\ dangerTimer (ObstacleManager.store w) - delta * 1000 <= 0) ->
      birdCount (ObstacleManager.store
                   (ObstacleManager.frame delta elapsedTime now rnd w))
      = birdCount (ObstacleManager.store w))
  /\ birdCount (ObstacleManager.store w) - 1
     <= birdCount (ObstacleManager.store
                     (ObstacleManager.frame delta elapsedTime now rnd w)).
Proof.
  intros Hplay.
  destruct (frame_playing delta elapsedTime now rnd w Hplay) as [-> _].
  rewrite loop_birds.
  destruct (ObstacleManager.store w)
    as [st ds ph sc bc bx by_ cam hand fist lht dt].
  cbn [dangerStatus dangerTimer birdCount]. store_unfold; cbn.
  pose proof (Rmax_r 0 (bc - 1)) as Hfloor.
  destruct ds; cbn.
  - repeat split; intros; try lra. destruct H; discriminate.
  - destruct (leb (dt - delta * 1000) 0) eqn:Hexp; cbn.
    + apply leb_true in Hexp. repeat split; intros; try lra. tauto.
    + apply leb_false in Hexp. repeat split; intros; try lra.
Qed.

Lemma frame_birds_witness :
  birdCount
    (ObstacleManager.store
       (ObstacleManager.frame 0.016 7.1 9000
          (ObstacleManager.mkRandoms 0 0 0 0 0 0 0)
          (ObstacleManager.mkWorld lastBirdWarning ObstacleManager.mounted)))
  = 0.
Proof.
  match goal with
  | |- birdCount (ObstacleManager.store (ObstacleManager.frame ?d ?e ?n ?r ?w)) = _ =>
      destruct (frame_birds d e n r w eq_refl) as (Hlost & _ & _)
  end.
  rewrite Hlost.
  - cbn. apply Rmax_left. lra.
  - split; [reflexivity | cbn; lra].
Defined.

(** X6: the session invariants (phase HIGH_ALTITUDE only above 300,
    GAME_WON only from 800 on, GAME_OVER only without birds, an integral
    bird count between 0 and 16) survive every frame, played or not. *)
Theorem frame_keeps_invariants (delta elapsedTime now : R)
  (rnd : ObstacleManager.Randoms) (w : ObstacleManager.World) :
  sessionInv (ObstacleManager.store w) ->
  sessionInv
    (ObstacleManager.store
       (ObstacleManager.frame delta elapsedTime now rnd w)).
Proof.
  intros Hinv.
  destruct (GameStatus_eqb (status (ObstacleManager.store w)) PLAYING) eqn:E.
  - apply GameStatus_eqb_eq in E.
    destruct (frame_playing delta elapsedTime now rnd w E) as [-> _].
    match goal with
    | |- sessionInv (fst (fold_left (ObstacleManager.laserStep _ _ ?bx ?by_ ?fr)
                                    ?prev (?st, ?acc))) =>
        destruct (loop_store delta now bx by_ fr prev st acc)
          as (acts & Hops & ->)
    end.
    apply run_inv; [exact Hops|].
    apply (step_inv (TickDangerTimer (delta * 1000) now)); [exact I | exact Hinv].
  - rewrite frame_idle; [exact Hinv|].
    intros Hplay. rewrite Hplay in E. discriminate E.
Qed.

Lemma frame_keeps_invariants_witness :
  sessionInv
    (ObstacleManager.store
       (ObstacleManager.frame 0.016 7.1 9000
          (ObstacleManager.mkRandoms 0 0 0 0 0 0 0)
          (ObstacleManager.mkWorld (Store.resetGame Store.initial)
             ObstacleManager.mounted))).
Proof.
  apply frame_keeps_invariants.
  apply start_inv. constructor.
Defined.

(** * Further properties of the collision test *)





(** X8: the hit test is monotone in the flock radius: what hits the
    clenched flock (radius 1) also hits the open one (radius 4), so
    closing the fist can only avoid hits. *)
Theorem smaller_flock_hits_less (delta bx by_ r1 r2 : R)
  (laser : ObstacleManager.Laser) :
  0 <= r1 <= r2 ->
  ObstacleManager.hits delta bx by_ r1 laser = true ->
  ObstacleManager.hits delta bx by_ r2 laser = true.
Proof.
  intros Hr. unfold ObstacleManager.hits.
  destruct (ltb _ 3); [| discriminate].
  destruct (ObstacleManager.closest bx by_ laser) as [cx cy].
  rewrite !ltb_true. intros Hhit.
  assert (Hvis : 0 < ObstacleManager.visualRadius (ObstacleManager.type laser))
    by (destruct (ObstacleManager.type laser); cbn; lra).
  nra.
Qed.

Lemma smaller_flock_hits_less_witness :
  ObstacleManager.hits 0 5 0 4 scenarioBeam = true.
Proof.
  apply (smaller_flock_hits_less 0 5 0 1 4 scenarioBeam); [lra|].
  assert (Hten : 0 <= ObstacleManager.width scenarioBeam) by (cbn; lra).
  apply (hits_iff 0 5 0 1 scenarioBeam Hten scenario_band).
  cbn [ObstacleManager.x ObstacleManager.y ObstacleManager.side
       ObstacleManager.angle ObstacleManager.width ObstacleManager.type
       scenarioBeam ObstacleManager.visualRadius].
  rewrite scenario_direction. exact (proj1 scenario_hit).
Defined.

Lemma distSq_along (a b u v r : R) :
  u ^ 2 + v ^ 2 = 1 ->
  (a - r * u) ^ 2 + (b - r * v) ^ 2 =
  a * a + b * b - 2 * r * (a * u + b * v) + r * r.
Proof. intros Hunit. nra. Qed.

(** X9: the point the test measures to is the nearest point of the
    segment: no point [origin + s * direction] with [0 <= s <= length] is
    closer to the flock.  Hence, in the depth band, when no hit is reported
    every point of the segment is at least visual radius plus flock radius
    away from the flock. *)
Theorem closest_is_nearest (delta bx by_ fr s : R)
  (laser : ObstacleManager.Laser) :
  0 <= s <= ObstacleManager.width laser ->
  CollisionSpec.distSq (bx, by_) (ObstacleManager.closest bx by_ laser)
  <= CollisionSpec.distSq (bx, by_)
       (ObstacleManager.x laser
        + s * fst (CollisionSpec.direction (ObstacleManager.side laser)
                                           (ObstacleManager.angle laser)),
        ObstacleManager.y laser
        + s * snd (CollisionSpec.direction (ObstacleManager.side laser)
                                           (ObstacleManager.angle laser)))
  /\ (CollisionSpec.inBand
        (ObstacleManager.z laser + ObstacleManager.LASER_SPEED * delta) ->
      ObstacleManager.hits delta bx by_ fr laser = false ->
      (ObstacleManager.visualRadius (ObstacleManager.type laser) + fr) ^ 2
      <= CollisionSpec.distSq (bx, by_)
           (ObstacleManager.x laser
            + s * fst (CollisionSpec.direction (ObstacleManager.side laser)
                                               (ObstacleManager.angle laser)),
            ObstacleManager.y laser
            + s * snd (CollisionSpec.direction (ObstacleManager.side laser)
                                               (ObstacleManager.angle laser)))).
Proof.
  intros Hs.
  assert (Hlen : 0 <= ObstacleManager.width laser) by lra.
  pose proof (direction_unit (ObstacleManager.side laser)
                             (ObstacleManager.angle laser)) as Hunit.
  assert (Hnear :
    CollisionSpec.distSq (bx, by_) (ObstacleManager.closest bx by_ laser)
    <= CollisionSpec.distSq (bx, by_)
         (ObstacleManager.x laser
          + s * fst (CollisionSpec.direction (ObstacleManager.side laser)
                                             (ObstacleManager.angle laser)),
          ObstacleManager.y laser
          + s * snd (CollisionSpec.direction (ObstacleManager.side laser)
                                             (ObstacleManager.angle laser)))).
  { rewrite (closest_refines _ _ _ Hlen).
    unfold CollisionSpec.closestPoint, CollisionSpec.distSq,
      CollisionSpec.project.
    destruct (CollisionSpec.direction _ _) as [u v]. cbn [fst snd] in *.
    set (a := bx - ObstacleManager.x laser).
    set (b := by_ - ObstacleManager.y laser).
    set (t := a * u + b * v).
    destruct (clamp_cases t (ObstacleManager.width laser) Hlen)
      as (Hneg & Hfar & Hmid).
    set (c := CollisionSpec.clamp t (ObstacleManager.width laser)) in *.
    replace (bx - (ObstacleManager.x laser + c * u)) with (a - c * u)
      by (unfold a; lra).
    replace (by_ - (ObstacleManager.y laser + c * v)) with (b - c * v)
      by (unfold b; lra).
    replace (bx - (ObstacleManager.x laser + s * u)) with (a - s * u)
      by (unfold a; lra).
    replace (by_ - (ObstacleManager.y laser + s * v)) with (b - s * v)
      by (unfold b; lra).
    rewrite !(distSq_along a b u v _ Hunit). fold t.
    destruct (Rlt_dec t 0) as [Ht0 | Ht0].
    - rewrite (Hneg Ht0). nra.
    - destruct (Rlt_dec (ObstacleManager.width laser) t) as [Htw | Htw].
      + rewrite (Hfar Htw). nra.
      + rewrite Hmid by lra. pose proof (pow2_ge_0 (s - t)). nra. }
  split; [exact Hnear|].
  intros Hband Hmiss.
  unfold ObstacleManager.hits in Hmiss. rewrite Rminus_0_r in Hmiss.
  unfold CollisionSpec.inBand in Hband. apply ltb_true in Hband.
  rewrite Hband in Hmiss.
  unfold CollisionSpec.distSq in Hnear at 1.
  destruct (ObstacleManager.closest bx by_ laser) as [cx cy].
  cbn [fst snd] in Hnear. apply ltb_false in Hmiss. nra.
Qed.

Lemma closest_is_nearest_witness :
  CollisionSpec.distSq (20, 0) (ObstacleManager.closest 20 0 scenarioBeam)
  <= CollisionSpec.distSq (20, 0)
       (0 + 4 * fst (CollisionSpec.direction (-1) 0),
        0 + 4 * snd (CollisionSpec.direction (-1) 0)).
Proof.
  apply (closest_is_nearest 0 20 0 1 4 scenarioBeam). cbn. lra.
Defined.

(** X10: with every [Math.random()] result in [0, 1), a CORRIDOR spawn is
    a beam at depth -200 with origin x in [-15, 15), y in [-5, 15), length
    in [40, 50), side 1 or -1 and angle plus or minus a quarter of pi, and
    the next interval lies in [300, 600); a HIGH_ALTITUDE spawn is a pillar
    at depth -200 with origin x in [-30, 30), y = -50, length 120, side -1
    and angle half of pi, and the next interval lies in [400, 700). *)
Theorem spawn_ranges (rnd : ObstacleManager.Randoms) :
  unitDraw (ObstacleManager.rnd_interval rnd) ->
  unitDraw (ObstacleManager.rnd_originX rnd) ->
  unitDraw (ObstacleManager.rnd_spawnY rnd) ->
  unitDraw (ObstacleManager.rnd_length rnd) ->
  (ObstacleManager.type (ObstacleManager.spawnLaser true rnd)
     = ObstacleManager.beam
   /\ ObstacleManager.z (ObstacleManager.spawnLaser true rnd) = -200
   /\ -15 <= ObstacleManager.x (ObstacleManager.spawnLaser true rnd) < 15
   /\ -5 <= ObstacleManager.y (ObstacleManager.spawnLaser true rnd) < 15
   /\ 40 <= ObstacleManager.width (ObstacleManager.spawnLaser true rnd) < 50
   /\ (ObstacleManager.side (ObstacleManager.spawnLaser true rnd) = 1
       \/ ObstacleManager.side (ObstacleManager.spawnLaser true rnd) = -1)
   /\ (ObstacleManager.angle (ObstacleManager.spawnLaser true rnd) = PI / 4
       \/ ObstacleManager.angle (ObstacleManager.spawnLaser true rnd)
          = - (PI / 4))
   /\ 300 <= ObstacleManager.spawnInterval true rnd < 600)
  /\ (ObstacleManager.type (ObstacleManager.spawnLaser false rnd)
        = ObstacleManager.pillar
      /\ ObstacleManager.z (ObstacleManager.spawnLaser false rnd) = -200
      /\ -30 <= ObstacleManager.x (ObstacleManager.spawnLaser false rnd) < 30
      /\ ObstacleManager.y (ObstacleManager.spawnLaser false rnd) = -50
      /\ ObstacleManager.width (ObstacleManager.spawnLaser false rnd) = 120
      /\ ObstacleManager.side (ObstacleManager.spawnLaser false rnd) = -1
      /\ ObstacleManager.angle (ObstacleManager.spawnLaser false rnd)
         = PI / 2
      /\ 400 <= ObstacleManager.spawnInterval false rnd < 700).
Proof.
  unfold unitDraw. intros Hi Hx Hy Hl.
  unfold ObstacleManager.spawnInterval, ObstacleManager.spawnLaser,
    ObstacleManager.LASER_SPAWN_INTERVAL_MIN_P1,
    ObstacleManager.LASER_SPAWN_INTERVAL_MAX_P1,
    ObstacleManager.LASER_SPAWN_INTERVAL_MIN_P2,
    ObstacleManager.LASER_SPAWN_INTERVAL_MAX_P2.
  cbn [ObstacleManager.type ObstacleManager.z ObstacleManager.x
       ObstacleManager.y ObstacleManager.width ObstacleManager.side
       ObstacleManager.angle].
  split.
  - repeat split; try lra.
    + destruct (gtb _ 0.5); auto.
    + destruct (gtb _ 0.5); [left | right]; lra.
  - repeat split; lra.
Qed.

Lemma spawn_ranges_witness :
  40 <= ObstacleManager.width
          (ObstacleManager.spawnLaser true
             (ObstacleManager.mkRandoms 0.5 0.25 0.75 0.9 0.1 0.5 0.3)) < 50.
Proof.
  assert (Hunit : forall r, 0 <= r < 1 -> unitDraw r) by (intros r H; exact H).
  destruct (spawn_ranges
              (ObstacleManager.mkRandoms 0.5 0.25 0.75 0.9 0.1 0.5 0.3))
    as [(_ & _ & _ & _ & Hw & _) _];
    [apply Hunit; cbn; lra .. | exact Hw].
Defined.

(** * Properties of the flock *)

(** X11: with the fist closed, whatever a trigger does is undone by the
    rescue effect at no cost: the bird count is as before the trigger,
    [dangerStatus] is SAFE and, while a bird is left, the status is as
    before.  The effect runs at most once per warning: applied again it
    changes nothing. *)
Theorem fist_rescue (s : GameState) (now later again : R) :
  isFist s = true ->
  birdCount (Flock.rescueEffect later (Store.triggerDanger now s))
    = birdCount s
  /\ dangerStatus (Flock.rescueEffect later (Store.triggerDanger now s))
     = SAFE
  /\ (0 < birdCount s ->
      status (Flock.rescueEffect later (Store.triggerDanger now s))
      = status s)
  /\ Flock.rescueEffect again
       (Flock.rescueEffect later (Store.triggerDanger now s))
     = Flock.rescueEffect later (Store.triggerDanger now s).
Proof.
  destruct s as [st ds ph sc bc bx by_ cam hand fist lht dt].
  cbn [isFist birdCount status]. intros ->.
  unfold Flock.rescueEffect. store_unfold; cbn.
  destruct ds; cbn; [destruct (ltb (now - lht) 2000); cbn|];
    repeat split; intros; try reflexivity;
    try (assert (leb bc 0 = false) as -> by (apply leb_false; assumption);
         reflexivity).
Qed.

Lemma fist_rescue_witness :
  birdCount
    (Flock.rescueEffect 5001
       (Store.triggerDanger 5000 (Store.setIsFist true Store.initial))) = 16.
Proof.
  exact (proj1 (fist_rescue (Store.setIsFist true Store.initial)
                  5000 5001 5002 eq_refl)).
Defined.

Lemma ease_error (delta : R) (s : GameState) (r : Flock.Refs) :
  fst (Flock.desired s) - fst (Flock.targetPos (Flock.ease delta s r))
    = (1 - Flock.followSpeed s * delta)
      * (fst (Flock.desired s) - fst (Flock.targetPos r))
  /\ snd (Flock.desired s) - snd (Flock.targetPos (Flock.ease delta s r))
     = (1 - Flock.followSpeed s * delta)
       * (snd (Flock.desired s) - snd (Flock.targetPos r))
  /\ Flock.targetSpread s - Flock.currentSpread (Flock.ease delta s r)
     = (1 - 3 * delta) * (Flock.targetSpread s - Flock.currentSpread r).
Proof. unfold Flock.ease. cbn. repeat split; ring. Qed.

(** X12: under an unchanged store, [n] frames of length [delta] scale
    the distance between the followed position and the desired one by
    [(1 - followSpeed * delta) ^ n] on each axis, and the distance of the
    spread to its target by [(1 - 3 * delta) ^ n]. *)
Theorem easing_is_geometric (n : nat) (delta : R) (s : GameState)
  (r : Flock.Refs) :
  fst (Flock.desired s) - fst (Flock.targetPos (Flock.easeN n delta s r))
    = (1 - Flock.followSpeed s * delta) ^ n
      * (fst (Flock.desired s) - fst (Flock.targetPos r))
  /\ snd (Flock.desired s) - snd (Flock.targetPos (Flock.easeN n delta s r))
     = (1 - Flock.followSpeed s * delta) ^ n
       * (snd (Flock.desired s) - snd (Flock.targetPos r))
  /\ Flock.targetSpread s - Flock.currentSpread (Flock.easeN n delta s r)
     = (1 - 3 * delta) ^ n
       * (Flock.targetSpread s - Flock.currentSpread r).
Proof.
  induction n as [| n (IHx & IHy & IHs)]; cbn [Flock.easeN pow].
  - repeat split; ring.
  - destruct (ease_error delta s (Flock.easeN n delta s r))
      as (Hx & Hy & Hs).
    rewrite Hx, Hy, Hs, IHx, IHy, IHs. repeat split; ring.
Qed.

(** X13: a frame of at most 0.2 s keeps the followed position inside the
    box the desired position ranges over ([-20, 20] by [-7, 17]) and the
    spread between its two targets (0.4 and 1.5), as long as the store's
    inputs are within [-1, 1]. *)
Theorem easing_stays_in_box (delta : R) (s : GameState) (r : Flock.Refs) :
  0 <= delta <= 0.2 ->
  inputsInRange s ->
  -20 <= fst (Flock.targetPos r) <= 20 ->
  -7 <= snd (Flock.targetPos r) <= 17 ->
  0.4 <= Flock.currentSpread r <= 1.5 ->
  -20 <= fst (Flock.targetPos (Flock.ease delta s r)) <= 20
  /\ -7 <= snd (Flock.targetPos (Flock.ease delta s r)) <= 17
  /\ 0.4 <= Flock.currentSpread (Flock.ease delta s r) <= 1.5.
Proof.
  intros Hd [Hx Hy] Hpx Hpy Hsp.
  unfold Flock.ease, Flock.desired, Flock.followSpeed, Flock.targetSpread.
  cbn [Flock.targetPos Flock.currentSpread fst snd].
  destruct r as [[px py] sp]. cbn [Flock.targetPos Flock.currentSpread fst snd] in *.
  assert (Hk : 0 <= (if DangerStatus_eqb (dangerStatus s) WARNING then 1 else 5)
                    * delta <= 1)
    by (destruct (DangerStatus_eqb _ _); lra).
  set (k := (if DangerStatus_eqb (dangerStatus s) WARNING then 1 else 5)) in *.
  assert (Hk3 : 0 <= 3 * delta <= 1) by lra.
  repeat split.
  - replace (px + (birdX s * 20 - px) * k * delta)
      with ((1 - k * delta) * px + k * delta * (birdX s * 20)) by ring.
    nra.
  - replace (px + (birdX s * 20 - px) * k * delta)
      with ((1 - k * delta) * px + k * delta * (birdX s * 20)) by ring.
    nra.
  - replace (py + (birdY s * 12 + 5 - py) * k * delta)
      with ((1 - k * delta) * py + k * delta * (birdY s * 12 + 5)) by ring.
    nra.
  - replace (py + (birdY s * 12 + 5 - py) * k * delta)
      with ((1 - k * delta) * py + k * delta * (birdY s * 12 + 5)) by ring.
    nra.
  - destruct (isFist s); nra.
  - destruct (isFist s); nra.
Qed.

Lemma easing_stays_in_box_witness :
  -20 <= fst (Flock.targetPos
                (Flock.ease 0.016 (Store.setBirdX 1 Store.initial)
                   Flock.mounted)) <= 20.
Proof.
  assert (Hin : inputsInRange (Store.setBirdX 1 Store.initial))
    by (split; cbn; lra).
  destruct (easing_stays_in_box 0.016 (Store.setBirdX 1 Store.initial)
              Flock.mounted) as (Hx & _ & _);
    [lra | exact Hin | cbn; lra .. | exact Hx].
Defined.

Lemma row_even (a : nat) : Flock.row (2 * a) = a.
Proof.
  unfold Flock.row. symmetry.
  apply (Nat.div_unique (2 * a + 1) 2 a 1); lia.
Qed.

Lemma row_odd (a : nat) : Flock.row (2 * a + 1) = S a.
Proof.
  unfold Flock.row. symmetry.
  apply (Nat.div_unique (2 * a + 1 + 1) 2 (S a) 0); lia.
Qed.

Lemma wing_even (a : nat) : Flock.wing (2 * a) = 1.
Proof.
  unfold Flock.wing.
  replace (Nat.even (2 * a)) with true; [reflexivity|].
  symmetry. apply Nat.even_spec. exists a. reflexivity.
Qed.

Lemma wing_odd (a : nat) : Flock.wing (2 * a + 1) = -1.
Proof.
  unfold Flock.wing.
  replace (Nat.even (2 * a + 1)) with false; [reflexivity|].
  symmetry. rewrite <- Nat.negb_odd. apply negb_false_iff.
  apply Nat.odd_spec. exists a. reflexivity.
Qed.

Lemma parity_cases (i : nat) : exists a : nat, i = (2 * a)%nat \/ i = (2 * a + 1)%nat.
Proof.
  destruct (Nat.Even_or_Odd i) as [[a ->] | [a ->]]; exists a; auto.
Qed.

(** The slot of bird [i]: wing and row, as real numbers. *)
Lemma offset_slot (spread : R) (i : nat) :
  (0 < i)%nat ->
  Flock.offset spread i =
  (Flock.wing i * INR (Flock.row i) * spread,
   INR (Flock.row i) * (spread * 0.8)).
Proof.
  intros Hi. unfold Flock.offset.
  destruct (0 <? i)%nat eqn:E; [reflexivity|].
  apply Nat.ltb_ge in E. lia.
Qed.

(** X14: with a non-zero spread no two birds share a place in the
    formation, and birds [2k - 1] and [2k] fly in the same row [k],
    mirrored left and right of the leader. *)
Theorem formation_slots (spread : R) (i j k : nat) :
  spread <> 0 ->
  (i <> j -> Flock.offset spread i <> Flock.offset spread j)
  /\ Flock.offset spread 0 = (0, 0)
  /\ Flock.offset spread (2 * S k) =
     (INR (S k) * spread, INR (S k) * (spread * 0.8))
  /\ Flock.offset spread (2 * k + 1) =
     (- (INR (S k) * spread), INR (S k) * (spread * 0.8)).
Proof.
  intros Hsp.
  assert (Hpos : forall a, INR (S a) <> 0)
    by (intros a; apply not_0_INR; discriminate).
  assert (Heven : forall a, Flock.offset spread (2 * S a) =
            (INR (S a) * spread, INR (S a) * (spread * 0.8))).
  { intros a. rewrite offset_slot by lia.
    rewrite row_even, wing_even. f_equal; ring. }
  assert (Hodd : forall a, Flock.offset spread (2 * a + 1) =
            (- (INR (S a) * spread), INR (S a) * (spread * 0.8))).
  { intros a. rewrite offset_slot by lia.
    rewrite row_odd, wing_odd. f_equal; ring. }
  split; [| split; [reflexivity | split; [apply Heven | apply Hodd]]].
  assert (Hslot : forall n, exists (sgn : R) (a : nat),
             (sgn = 1 \/ sgn = -1)
             /\ Flock.offset spread n = (sgn * INR a * spread, INR a * (spread * 0.8))
             /\ (n = 0%nat -> a = 0%nat)
             /\ ((0 < n)%nat -> (0 < a)%nat
                 /\ ((sgn = 1 /\ n = (2 * a)%nat)
                     \/ (sgn = -1 /\ (n + 1 = 2 * a)%nat)))).
  { intros n. destruct (parity_cases n) as (a & [-> | ->]).
    - destruct a as [| a].
      + exists 1, 0%nat.
        split; [auto | split; [| split; [reflexivity | intros; lia]]].
        cbn. f_equal; ring.
      + exists 1, (S a). rewrite Heven.
        split; [auto | split; [f_equal; ring | split; intros; [lia|]]].
        split; [lia | left; split; reflexivity].
    - exists (-1), (S a). rewrite Hodd.
      split; [auto | split; [f_equal; ring | split; intros; [lia|]]].
      split; [lia | right; split; [reflexivity | lia]]. }
  intros Hne Heq.
  destruct (Hslot i) as (si & ai & Hsi & Hoi & Hzi & Hpi).
  destruct (Hslot j) as (sj & aj & Hsj & Hoj & Hzj & Hpj).
  rewrite Hoi, Hoj in Heq. injection Heq as Hx Hz.
  assert (Hrow : INR ai = INR aj) by nra.
  apply INR_eq in Hrow. subst aj.
  destruct (Nat.eq_dec i 0) as [-> | Hi]; destruct (Nat.eq_dec j 0) as [-> | Hj].
  - contradiction.
  - specialize (Hzi eq_refl). destruct Hpj as [Hpj _]; lia.
  - specialize (Hzj eq_refl). destruct Hpi as [Hpi _]; lia.
  - destruct Hpi as [Hai Hci]; [lia|]. destruct Hpj as [_ Hcj]; [lia|].
    assert (Hnz : INR ai * spread <> 0).
    { apply Rmult_integral_contrapositive. split; [| exact Hsp].
      apply not_0_INR. lia. }
    destruct Hci as [[-> ->] | [-> Hci]]; destruct Hcj as [[-> ->] | [-> Hcj]];
      try contradiction; try lia; nra.
Qed.

Lemma formation_slots_witness :
  Flock.offset 1.5 3 <> Flock.offset 1.5 4.
Proof.
  assert (Hsp : 1.5 <> 0) by lra.
  apply (proj1 (formation_slots 1.5 3 4 0 Hsp)). discriminate.
Defined.

Lemma filter_all {A : Type} (f : A -> bool) (l : list A) :
  (forall a, In a l -> f a = true) -> filter f l = l.
Proof.
  induction l as [| a l IH]; intros Hall; [reflexivity|].
  cbn [filter]. rewrite (Hall a (or_introl eq_refl)).
  f_equal. apply IH. intros b Hb. apply Hall. right. exact Hb.
Qed.

Lemma filter_none {A : Type} (f : A -> bool) (l : list A) :
  (forall a, In a l -> f a = false) -> filter f l = [].
Proof.
  induction l as [| a l IH]; intros Hnone; [reflexivity|].
  cbn [filter]. rewrite (Hnone a (or_introl eq_refl)).
  apply IH. intros b Hb. apply Hnone. right. exact Hb.
Qed.

Lemma count_below (m k : nat) :
  (m <= k)%nat ->
  filter (fun i => (i <? m)%nat) (seq 0 k) = seq 0 m.
Proof.
  intros Hm. replace k with (m + (k - m))%nat by lia.
  rewrite seq_app, filter_app, filter_all, filter_none.
  - apply app_nil_r.
  - intros i Hin. apply in_seq in Hin. apply Nat.ltb_ge. lia.
  - intros i Hin. apply in_seq in Hin. apply Nat.ltb_lt. lia.
Qed.

(** X15: when the bird count is an integer [n] between 0 and 16, as it
    is throughout a session, the birds drawn are exactly the first [n] of
    the 16 instances. *)
Theorem visible_birds (s : GameState) (n : nat) :
  birdCount s = INR n ->
  (n <= Flock.FLOCK_COUNT)%nat ->
  Flock.visibleBirds s = seq 0 n
  /\ length (Flock.visibleBirds s) = n.
Proof.
  intros Hcount Hn.
  assert (Hlist : Flock.visibleBirds s = seq 0 n).
  { unfold Flock.visibleBirds.
    rewrite (filter_ext (Flock.visible s) (fun i => (i <? n)%nat)).
    - apply count_below. exact Hn.
    - intros i. unfold Flock.visible, geb. rewrite Hcount.
      destruct (i <? n)%nat eqn:E.
      + apply Nat.ltb_lt in E. apply lt_INR in E.
        apply negb_true_iff. apply leb_false. exact E.
      + apply Nat.ltb_ge in E. apply le_INR in E.
        apply negb_false_iff. apply leb_true. exact E. }
  split; [exact Hlist|]. rewrite Hlist. apply length_seq.
Qed.

Lemma visible_birds_witness :
  Flock.visibleBirds Store.initial = seq 0 16.
Proof.
  apply (visible_birds Store.initial 16).
  - cbn [birdCount Store.initial]. rewrite INR_IZR_INZ. reflexivity.
  - unfold Flock.FLOCK_COUNT. lia.
Defined.

(** * Properties of the hand controller *)

(** X16: the horizontal and vertical mappings always land in [-1, 1];
    they are linear around the centre of the image (raw x between 0.1 and
    0.9, raw y between 1/6 and 5/6), saturate outside, map the centre to 0,
    and are mirrored: a larger raw coordinate never gives a larger input. *)
Theorem hand_mapping (raw raw' : R) :
  -1 <= HandController.mapX raw <= 1
  /\ -1 <= HandController.mapY raw <= 1
  /\ (0.1 <= raw <= 0.9 -> HandController.mapX raw = (0.5 - raw) * 2.5)
  /\ (raw <= 0.1 -> HandController.mapX raw = 1)
  /\ (0.9 <= raw -> HandController.mapX raw = -1)
  /\ (1 / 6 <= raw <= 5 / 6 -> HandController.mapY raw = (0.5 - raw) * 3)
  /\ (raw <= 1 / 6 -> HandController.mapY raw = 1)
  /\ (5 / 6 <= raw -> HandController.mapY raw = -1)
  /\ HandController.mapX 0.5 = 0
  /\ HandController.mapY 0.5 = 0
  /\ (raw <= raw' ->
      HandController.mapX raw' <= HandController.mapX raw
      /\ HandController.mapY raw' <= HandController.mapY raw).
Proof.
  assert (HX : forall r, HandController.mapX r =
                 if Rle_dec r 0.1 then 1
                 else if Rle_dec 0.9 r then -1 else (0.5 - r) * 2.5).
  { intros r. unfold HandController.mapX, Rmax, Rmin.
    destruct (Rle_dec 1 _); destruct (Rle_dec (-1) _);
      destruct (Rle_dec r 0.1); destruct (Rle_dec 0.9 r); lra. }
  assert (HY : forall r, HandController.mapY r =
                 if Rle_dec r (1 / 6) then 1
                 else if Rle_dec (5 / 6) r then -1 else (0.5 - r) * 3).
  { intros r. unfold HandController.mapY, Rmax, Rmin.
    destruct (Rle_dec 1 _); destruct (Rle_dec (-1) _);
      destruct (Rle_dec r (1 / 6)); destruct (Rle_dec (5 / 6) r); lra. }
  rewrite !HX, !HY.
  repeat match goal with
         | |- context [Rle_dec ?a ?b] => destruct (Rle_dec a b)
         end;
    repeat split; intros; try lra; split; lra.
Qed.

Lemma mapped_in_range (raw : R) :
  -1 <= HandController.mapX raw <= 1 /\ -1 <= HandController.mapY raw <= 1.
Proof.
  unfold HandController.mapX, HandController.mapY, Rmax, Rmin.
  repeat match goal with
         | |- context [Rle_dec ?a ?b] => destruct (Rle_dec a b)
         end;
    repeat split; lra.
Qed.

Ltac setters_eval :=
  unfold Store.setStatus, Store.setBirdX, Store.setBirdY, Store.setIsFist,
    Store.setCameraPermission, Store.setHandDetected;
  store_unfold;
  cbn [HandController.stateOf status dangerStatus phase score birdCount
       birdX birdY cameraPermissionGranted handDetected isFist lastHitTime
       dangerTimer].

(** X17: whatever the detector returns, and whether or not the update
    throws half-way, the inputs left in the store stay within [-1, 1] and
    nothing but [birdX], [birdY], [isFist] and [handDetected] is written;
    without a hand the position is kept and both [isFist] and
    [handDetected] are cleared. *)
Theorem detections_touch_inputs_only
  (detections : list (list HandController.Landmark)) (s : GameState) :
  inputsInRange s ->
  inputsInRange (HandController.stateOf
                   (HandController.onDetections detections s))
  /\ (exists (bx by_ : R) (hand fist : bool),
         HandController.stateOf (HandController.onDetections detections s) =
         mkGameState (status s) (dangerStatus s) (phase s) (score s)
           (birdCount s) bx by_ (cameraPermissionGranted s) hand fist
           (lastHitTime s) (dangerTimer s))
  /\ HandController.onDetections [] s =
     HandController.Done
       (mkGameState (status s) (dangerStatus s) (phase s) (score s)
          (birdCount s) (birdX s) (birdY s) (cameraPermissionGranted s)
          false false (lastHitTime s) (dangerTimer s)).
Proof.
  destruct s as [st ds ph sc bc bx by_ cam hand fist lht dt].
  unfold inputsInRange. cbn [birdX birdY]. intros [Hx Hy].
  split; [| split; [| reflexivity]].
  - unfold HandController.onDetections.
    destruct detections as [| landmarks rest];
      [setters_eval; split; assumption|].
    destruct (nth_error landmarks 9) as [mcp|];
      [| setters_eval; split; assumption].
    pose proof (mapped_in_range (HandController.x mcp)) as [Hmx _].
    pose proof (mapped_in_range (HandController.y mcp)) as [_ Hmy].
    destruct (HandController.isFistDetected landmarks);
      setters_eval; split; assumption.
  - unfold HandController.onDetections.
    destruct detections as [| landmarks rest]; [setters_eval; eauto|].
    destruct (nth_error landmarks 9) as [mcp|]; [| setters_eval; eauto].
    destruct (HandController.isFistDetected landmarks);
      setters_eval; eauto.
Qed.

Lemma detections_touch_inputs_only_witness :
  inputsInRange
    (HandController.stateOf
       (HandController.onDetections
          [[HandController.mkLandmark 0.2 0.9]] Store.initial)).
Proof.
  apply detections_touch_inputs_only.
  split; cbn; lra.
Defined.

Lemma getDist_defined (landmarks : list HandController.Landmark)
  (wrist : HandController.Landmark) (idx : nat) :
  (idx < length landmarks)%nat ->
  exists d, HandController.getDist landmarks wrist idx = Some d.
Proof.
  intros Hidx. unfold HandController.getDist.
  destruct (nth_error landmarks idx) eqn:E; [eauto|].
  apply nth_error_None in E. lia.
Qed.

(** X18: the update runs to its end exactly when no hand is reported or
    the first hand has at least 21 landmarks (index 20, the tip of the
    little finger, is the highest one read); with fewer it throws after
    [handDetected] has been set. *)
Theorem detections_complete
  (detections : list (list HandController.Landmark)) (s : GameState) :
  (exists s', HandController.onDetections detections s
              = HandController.Done s')
  <-> match detections with
      | [] => True
      | landmarks :: _ => (21 <= length landmarks)%nat
      end.
Proof.
  destruct detections as [| landmarks rest]; cbn [HandController.onDetections].
  - split; [trivial | eauto].
  - destruct (Nat.le_gt_cases 21 (length landmarks)) as [Hfull | Hshort].
    + split; [intros _; exact Hfull | intros _].
      destruct (nth_error landmarks 9) as [mcp|] eqn:E9;
        [| apply nth_error_None in E9; lia].
      unfold HandController.isFistDetected.
      destruct (nth_error landmarks 0) as [wrist|] eqn:E0;
        [| apply nth_error_None in E0; lia].
      unfold HandController.tips, HandController.pips.
      cbn [HandController.mapDist].
      repeat match goal with
             | |- context [HandController.getDist landmarks wrist ?i] =>
                 let d := fresh "d" in
                 let H := fresh "H" in
                 destruct (getDist_defined landmarks wrist i) as [d H];
                 [lia | rewrite H]
             end.
      eauto.
    + split; [| lia]. intros [s' Hdone]. exfalso.
      destruct (nth_error landmarks 9) as [mcp|]; [| discriminate].
      assert (Hnone : HandController.isFistDetected landmarks = None).
      { unfold HandController.isFistDetected.
        destruct (nth_error landmarks 0) as [wrist|]; [| reflexivity].
        assert (H20 : HandController.getDist landmarks wrist 20 = None).
        { unfold HandController.getDist.
          replace (nth_error landmarks 20) with (@None HandController.Landmark);
            [reflexivity|].
          symmetry. apply nth_error_None. lia. }
        unfold HandController.tips. cbn [HandController.mapDist].
        rewrite H20.
        destruct (HandController.getDist landmarks wrist 8);
          [| reflexivity].
        destruct (HandController.getDist landmarks wrist 12);
          [| reflexivity].
        destruct (HandController.getDist landmarks wrist 16); reflexivity. }
      rewrite Hnone in Hdone. discriminate.
Qed.







(** * Properties of the scenery and of the overlay *)

(** X20: scrolling recycles what passes depth 50: a building at depth at
    most 50 is, after a frame that moves it by no more than 600, again at
    depth at most 50 and above -550, and a ground light stays within
    (-200, 50] for moves of no more than 250; whatever has not passed
    depth 50 simply moves forward by [SPEED * delta]. *)
Theorem scenery_wraps (delta z : R) :
  0 <= delta ->
  (z + City.SPEED * delta <= 50 ->
   City.scroll delta z = z + City.SPEED * delta
   /\ City.floorScroll delta z = z + City.SPEED * delta)
  /\ (-550 < z <= 50 -> City.SPEED * delta <= 600 ->
      -550 < City.scroll delta z <= 50)
  /\ (-200 < z <= 50 -> City.SPEED * delta <= 250 ->
      -200 < City.floorScroll delta z <= 50)
  /\ (50 < z + City.SPEED * delta ->
      City.scroll delta z = z + City.SPEED * delta - 600
      /\ City.floorScroll delta z = z + City.SPEED * delta - 250).
Proof.
  intros Hd.
  unfold City.scroll, City.floorScroll, City.SPEED, City.BUILDING_RANGE,
    City.RANGE, gtb.
  destruct (ltb 50 (z + 40 * delta)) eqn:E;
    [apply ltb_true in E | apply ltb_false in E];
    repeat split; intros; lra.
Qed.

Lemma scenery_wraps_witness :
  -550 < City.scroll 0.5 40 <= 50.
Proof.
  destruct (scenery_wraps 0.5 40) as (_ & Hcity & _); [lra|].
  apply Hcity; unfold City.SPEED; lra.
Defined.

(** X21: in every state exactly one of the five panels is rendered (the
    warning overlay, the start menu, the game-over screen, the victory
    screen or the bottom instructions); a restart button is offered
    exactly in the two final states, and pressing it, like pressing start
    in the menu, leads to the bottom instructions alone. *)
Theorem one_panel_at_a_time (s : GameState) :
  length (filter (fun shown => shown) (UI.panels s)) = 1%nat
  /\ (UI.restartOffered s = true
      <-> status s = GAME_OVER \/ status s = GAME_WON)
  /\ UI.panels (Store.resetGame s) = [false; false; false; false; true]
  /\ (UI.startMenu s = true -> dangerStatus s = SAFE ->
      UI.panels (Store.setStatus PLAYING s)
      = [false; false; false; false; true]).
Proof.
  destruct s as [st ds ph sc bc bx by_ cam hand fist lht dt].
  unfold UI.panels, UI.restartOffered, UI.warningOverlay, UI.startMenu,
    UI.gameOverScreen, UI.victoryScreen, UI.bottomInstructions.
  cbn [status dangerStatus].
  split; [destruct st, ds; reflexivity|].
  split; [destruct st; cbn; intuition congruence|].
  split; [reflexivity|].
  intros _ Hsafe. cbn in Hsafe. subst ds. reflexivity.
Qed.
